(** * Chat session lifecycle and agent capacity of mmeink-backend

    A shallow embedding of the model methods of [accounts/models.py]
    ([User]) and [chat/models.py] ([ChatSession], [ChatQueue], [Message],
    [ChatHold], [ChatRating], [CannedResponse]) and of the computed
    columns of [chat/admin.py], and the properties of the session life
    cycle, the agent capacity counters, the queue ordering, the read and
    hold timestamps, the rating count and the admin texts that hold of
    them.

    Conventions of the embedding.
    - A Django model instance is a record; a method that assigns fields of
      [self] and then calls [self.save(update_fields=[...])] is a function
      from the record before the call to the record after it.  Every such
      method lists in [update_fields] exactly the fields it has just
      assigned, so on a stored object the record after the call is both
      the object in memory and its stored row; [auto_now] columns are
      not in [update_fields] and are therefore not written.
    - An object that was never saved is one whose [auto_now_add] column
      is still [None].  Its primary key has a default, so
      [save(update_fields=[...])] inserts the row instead of updating
      it, and [auto_now_add] sets that column to the time of the insert,
      a reading of the clock of its own.
    - A related object ([session.assigned_agent]) is the copy cached on
      the instance, or, at the first access, the row that the foreign
      key names, which is then cached.  A save of a stored object finds
      its row.
    - Integer columns are Python integers: [Z], no wrap-around.
    - A [DateTimeField] is the number of microseconds since the epoch
      ([Z]); a nullable column is an [option].
    - [timezone.now()] and [secrets.token_urlsafe(32)] are inputs of the
      methods that call them. *)

From Stdlib Require Import ZArith String Lia.
From stdpp Require Import gmap list sorting pretty.

Local Open Scope Z_scope.

(** Primary keys are UUIDs: 128-bit numbers. *)
Definition UUID : Set := N.

(** [datetime], in microseconds since the epoch, and [timedelta], in
    microseconds. *)
Definition datetime : Set := Z.
Definition timedelta : Set := Z.

(** [timezone.timedelta(hours=h)]. *)
Definition timedelta_hours (h : Z) : timedelta := h * 3600 * 1000000.

(** ** [int(delta.total_seconds())]

    [timedelta.total_seconds()] divides the microseconds of the
    difference by [10**6] with Python's true division of integers: the
    result is the binary64 number nearest to the quotient, a tie going
    to the even significand.  [int] then drops the fraction.  For a
    quotient [q > 0] that number is [m * 2^e] with
    [e = floor (log2 q) - 52] and [m] the integer nearest to [q / 2^e],
    so that [2^52 <= m <= 2^53]. *)

Definition us_per_second : Z := 1000000.

(** The integer nearest to [num / den], a tie going to the even one. *)
Definition round_half_even (num den : Z) : Z :=
  let m := num / den in
  let r := num mod den in
  if 2 * r <? den then m
  else if den <? 2 * r then m + 1
  else if Z.even m then m else m + 1.

(** [floor (log2 (n / 10^6)) + 20] for [n > 0]: as [10^6 < 2^20], the
    quotient [n * 2^20 / 10^6] is at least 1 and its integer part has
    the same binary logarithm. *)
Definition quotient_bits (n : Z) : Z := Z.log2 (n * 2 ^ 20 / us_per_second).

(** The significand [m] of the binary64 number nearest to [n / 10^6],
    [n > 0]: with [L := quotient_bits n] the exponent is [e = L - 72]
    and [n / 10^6 / 2^e = n * 2^72 / (10^6 * 2^L)]. *)
Definition nearest_significand (n : Z) : Z :=
  round_half_even (n * 2 ^ 72) (us_per_second * 2 ^ quotient_bits n).

(** [int(n / 10**6)] for [n > 0]: the integer part of
    [m * 2^(L - 72)]. *)
Definition int_of_float (n : Z) : Z :=
  nearest_significand n * 2 ^ quotient_bits n / 2 ^ 72.

(** [int(delta.total_seconds())].  Rounding to nearest and dropping the
    fraction are both symmetric about 0.  (Every difference of two
    datetimes is below [2^39] seconds, far from the range in which a
    quotient overflows binary64.) *)
Definition int_total_seconds (delta : timedelta) : Z :=
  match delta with
  | Z0 => 0
  | Zpos _ => int_of_float delta
  | Zneg _ => - int_of_float (- delta)
  end.

(** The differences on which the conversion through binary64 is exact:
    below [2^34] seconds (about 544 years) in absolute value. *)
Definition exact_seconds_range (delta : timedelta) : Prop :=
  - (2 ^ 34 * us_per_second) < delta < 2 ^ 34 * us_per_second.

(* ================================================================= *)
(** ** accounts/models.py : [User] *)

Module Accounts.

Inductive Role : Set := admin | agent | supervisor.

(** [STATUS_CHOICES]; [on_break] is the choice spelled ['break']. *)
Inductive Status : Set := online | offline | busy | on_break.

#[export] Instance agent_status_eq_dec : EqDecision Status.
Proof. solve_decision. Defined.

Record User : Set := mkUser {
  id : UUID;
  username : string;
  email : string;
  role : Role;
  status : Status;
  is_available : bool;
  current_chats_count : Z;
  max_concurrent_chats : Z;
  total_chats_handled : Z;
  total_ratings : Z
}.

Definition set_current_chats_count (v : Z) (u : User) : User :=
  {| id := id u; username := username u; email := email u; role := role u;
     status := status u; is_available := is_available u;
     current_chats_count := v;
     max_concurrent_chats := max_concurrent_chats u;
     total_chats_handled := total_chats_handled u;
     total_ratings := total_ratings u |}.

Definition set_total_chats_handled (v : Z) (u : User) : User :=
  {| id := id u; username := username u; email := email u; role := role u;
     status := status u; is_available := is_available u;
     current_chats_count := current_chats_count u;
     max_concurrent_chats := max_concurrent_chats u;
     total_chats_handled := v;
     total_ratings := total_ratings u |}.

(** [User.can_accept_chat]. *)
Definition can_accept_chat (self : User) : bool :=
  is_available self
  && bool_decide (status self = online)
  && (current_chats_count self <? max_concurrent_chats self).

(** [User.increment_chat_count]: both counters, unconditionally. *)
Definition increment_chat_count (self : User) : User :=
  let self := set_current_chats_count (current_chats_count self + 1) self in
  set_total_chats_handled (total_chats_handled self + 1) self.

(** [User.decrement_chat_count]: assigns and saves only under the test
    [current_chats_count > 0]. *)
Definition decrement_chat_count (self : User) : User :=
  if 0 <? current_chats_count self
  then set_current_chats_count (current_chats_count self - 1) self
  else self.

(** The capacity invariant of the data model. *)
Definition chat_count_invariant (a : User) : Prop :=
  0 <= current_chats_count a <= max_concurrent_chats a.

(** Modelled from the spec: the registry operation [tryReserveSlot],
    which the source does not define.  The spec words it as a check of
    [is_available && status==online && current<max] (the source's
    [can_accept_chat]) that, if true, increments [current_chats_count]
    and [total_chats_handled] (the source's [increment_chat_count]) and
    returns success, and otherwise returns false with no mutation. *)
Definition tryReserveSlot (a : User) : bool * User :=
  if can_accept_chat a then (true, increment_chat_count a) else (false, a).

(** The two mutating operations of the registry, and a run of them on
    one agent. *)
Inductive RegistryOp : Set := Increment | Decrement.

Definition registry_step (a : User) (op : RegistryOp) : User :=
  match op with
  | Increment => increment_chat_count a
  | Decrement => decrement_chat_count a
  end.

Definition registry_run (ops : list RegistryOp) (a : User) : User :=
  foldl registry_step a ops.

(** An agent working at full capacity (5 of 5). *)
Definition full_agent : User :=
  {| id := 1%N; username := "john_agent"; email := "john@mmeink.com";
     role := agent; status := online; is_available := true;
     current_chats_count := 5; max_concurrent_chats := 5;
     total_chats_handled := 12; total_ratings := 0 |}.

(** An idle agent (0 of 5). *)
Definition idle_agent : User :=
  {| id := 2%N; username := "sarah_agent"; email := "sarah@mmeink.com";
     role := agent; status := online; is_available := true;
     current_chats_count := 0; max_concurrent_chats := 5;
     total_chats_handled := 7; total_ratings := 0 |}.

End Accounts.

(* ================================================================= *)
(** ** chat/models.py : [ChatSession] *)

Module Chat.

(** [ChatSession.STATUS_CHOICES]. *)
Inductive Status : Set :=
  bot | waiting | assigned | active | on_hold | abandoned | closed.

(** [ChatSession.PRIORITY_CHOICES]. *)
Inductive Priority : Set := low | normal | high | urgent.

#[export] Instance session_status_eq_dec : EqDecision Status.
Proof. solve_decision. Defined.

#[export] Instance session_priority_eq_dec : EqDecision Priority.
Proof. solve_decision. Defined.

(** The columns of [ChatSession] that its methods read or write, and
    the flags and counters beside them.  [assigned_agent] is the key of
    the agent's row and [assigned_agent_cached] the related object
    cached on the instance, [None] as long as it was neither assigned as
    an object nor accessed; [created_at] is [None] until the first save
    ([auto_now_add]). *)
Record ChatSession : Set := mkChatSession {
  id : UUID;
  customer_email : string;
  status : Status;
  priority : Priority;
  assigned_agent : option UUID;
  assigned_agent_cached : option Accounts.User;
  resume_token : option string;
  resume_token_expires_at : option datetime;
  is_abandoned : bool;
  is_resumed : bool;
  requires_followup : bool;
  created_at : option datetime;
  first_response_at : option datetime;
  closed_at : option datetime;
  wait_time_seconds : option Z;
  response_time_seconds : option Z;
  total_duration_seconds : option Z;
  message_count : Z
}.

Definition set_status (v : Status) (s : ChatSession)
  : ChatSession :=
  {| id := id s;
     customer_email := customer_email s;
     status := v;
     priority := priority s;
     assigned_agent := assigned_agent s;
     assigned_agent_cached := assigned_agent_cached s;
     resume_token := resume_token s;
     resume_token_expires_at := resume_token_expires_at s;
     is_abandoned := is_abandoned s;
     is_resumed := is_resumed s;
     requires_followup := requires_followup s;
     created_at := created_at s;
     first_response_at := first_response_at s;
     closed_at := closed_at s;
     wait_time_seconds := wait_time_seconds s;
     response_time_seconds := response_time_seconds s;
     total_duration_seconds := total_duration_seconds s;
     message_count := message_count s |}.

Definition set_assigned_agent_cached
  (v : option Accounts.User) (s : ChatSession)
  : ChatSession :=
  {| id := id s;
     customer_email := customer_email s;
     status := status s;
     priority := priority s;
     assigned_agent := assigned_agent s;
     assigned_agent_cached := v;
     resume_token := resume_token s;
     resume_token_expires_at := resume_token_expires_at s;
     is_abandoned := is_abandoned s;
     is_resumed := is_resumed s;
     requires_followup := requires_followup s;
     created_at := created_at s;
     first_response_at := first_response_at s;
     closed_at := closed_at s;
     wait_time_seconds := wait_time_seconds s;
     response_time_seconds := response_time_seconds s;
     total_duration_seconds := total_duration_seconds s;
     message_count := message_count s |}.

Definition set_resume_token (v : option string) (s : ChatSession)
  : ChatSession :=
  {| id := id s;
     customer_email := customer_email s;
     status := status s;
     priority := priority s;
     assigned_agent := assigned_agent s;
     assigned_agent_cached := assigned_agent_cached s;
     resume_token := v;
     resume_token_expires_at := resume_token_expires_at s;
     is_abandoned := is_abandoned s;
     is_resumed := is_resumed s;
     requires_followup := requires_followup s;
     created_at := created_at s;
     first_response_at := first_response_at s;
     closed_at := closed_at s;
     wait_time_seconds := wait_time_seconds s;
     response_time_seconds := response_time_seconds s;
     total_duration_seconds := total_duration_seconds s;
     message_count := message_count s |}.

Definition set_resume_token_expires_at (v : option datetime) (s : ChatSession)
  : ChatSession :=
  {| id := id s;
     customer_email := customer_email s;
     status := status s;
     priority := priority s;
     assigned_agent := assigned_agent s;
     assigned_agent_cached := assigned_agent_cached s;
     resume_token := resume_token s;
     resume_token_expires_at := v;
     is_abandoned := is_abandoned s;
     is_resumed := is_resumed s;
     requires_followup := requires_followup s;
     created_at := created_at s;
     first_response_at := first_response_at s;
     closed_at := closed_at s;
     wait_time_seconds := wait_time_seconds s;
     response_time_seconds := response_time_seconds s;
     total_duration_seconds := total_duration_seconds s;
     message_count := message_count s |}.

Definition set_is_abandoned (v : bool) (s : ChatSession)
  : ChatSession :=
  {| id := id s;
     customer_email := customer_email s;
     status := status s;
     priority := priority s;
     assigned_agent := assigned_agent s;
     assigned_agent_cached := assigned_agent_cached s;
     resume_token := resume_token s;
     resume_token_expires_at := resume_token_expires_at s;
     is_abandoned := v;
     is_resumed := is_resumed s;
     requires_followup := requires_followup s;
     created_at := created_at s;
     first_response_at := first_response_at s;
     closed_at := closed_at s;
     wait_time_seconds := wait_time_seconds s;
     response_time_seconds := response_time_seconds s;
     total_duration_seconds := total_duration_seconds s;
     message_count := message_count s |}.

Definition set_created_at (v : option datetime) (s : ChatSession)
  : ChatSession :=
  {| id := id s;
     customer_email := customer_email s;
     status := status s;
     priority := priority s;
     assigned_agent := assigned_agent s;
     assigned_agent_cached := assigned_agent_cached s;
     resume_token := resume_token s;
     resume_token_expires_at := resume_token_expires_at s;
     is_abandoned := is_abandoned s;
     is_resumed := is_resumed s;
     requires_followup := requires_followup s;
     created_at := v;
     first_response_at := first_response_at s;
     closed_at := closed_at s;
     wait_time_seconds := wait_time_seconds s;
     response_time_seconds := response_time_seconds s;
     total_duration_seconds := total_duration_seconds s;
     message_count := message_count s |}.

Definition set_closed_at (v : option datetime) (s : ChatSession)
  : ChatSession :=
  {| id := id s;
     customer_email := customer_email s;
     status := status s;
     priority := priority s;
     assigned_agent := assigned_agent s;
     assigned_agent_cached := assigned_agent_cached s;
     resume_token := resume_token s;
     resume_token_expires_at := resume_token_expires_at s;
     is_abandoned := is_abandoned s;
     is_resumed := is_resumed s;
     requires_followup := requires_followup s;
     created_at := created_at s;
     first_response_at := first_response_at s;
     closed_at := v;
     wait_time_seconds := wait_time_seconds s;
     response_time_seconds := response_time_seconds s;
     total_duration_seconds := total_duration_seconds s;
     message_count := message_count s |}.

Definition set_wait_time_seconds (v : option Z) (s : ChatSession)
  : ChatSession :=
  {| id := id s;
     customer_email := customer_email s;
     status := status s;
     priority := priority s;
     assigned_agent := assigned_agent s;
     assigned_agent_cached := assigned_agent_cached s;
     resume_token := resume_token s;
     resume_token_expires_at := resume_token_expires_at s;
     is_abandoned := is_abandoned s;
     is_resumed := is_resumed s;
     requires_followup := requires_followup s;
     created_at := created_at s;
     first_response_at := first_response_at s;
     closed_at := closed_at s;
     wait_time_seconds := v;
     response_time_seconds := response_time_seconds s;
     total_duration_seconds := total_duration_seconds s;
     message_count := message_count s |}.

Definition set_total_duration_seconds (v : option Z) (s : ChatSession)
  : ChatSession :=
  {| id := id s;
     customer_email := customer_email s;
     status := status s;
     priority := priority s;
     assigned_agent := assigned_agent s;
     assigned_agent_cached := assigned_agent_cached s;
     resume_token := resume_token s;
     resume_token_expires_at := resume_token_expires_at s;
     is_abandoned := is_abandoned s;
     is_resumed := is_resumed s;
     requires_followup := requires_followup s;
     created_at := created_at s;
     first_response_at := first_response_at s;
     closed_at := closed_at s;
     wait_time_seconds := wait_time_seconds s;
     response_time_seconds := response_time_seconds s;
     total_duration_seconds := v;
     message_count := message_count s |}.

(** Python truth value of a nullable [CharField]: [None] and the empty
    string are false. *)
Definition truthy_str (o : option string) : bool :=
  match o with
  | Some EmptyString => false
  | Some (String _ _) => true
  | None => false
  end.

(** Python truth value of a nullable [DateTimeField] or foreign key:
    only [None] is false. *)
Definition truthy_obj {A : Type} (o : option A) : bool :=
  match o with Some _ => true | None => false end.

(** [self.save(update_fields=[...])] on a session whose listed columns
    the record already holds.  On a stored session nothing else
    happens; a session never saved is inserted, and [auto_now_add] sets
    [created_at] to [inserted_at], the time of the insert. *)
Definition save (inserted_at : datetime) (self : ChatSession) : ChatSession :=
  match created_at self with
  | Some _ => self
  | None => set_created_at (Some inserted_at) self
  end.

(** [self.assigned_agent]: the cached related object, or the row that
    the foreign key names (the column is [on_delete=SET_NULL], so a key
    that is set names a row). *)
Definition related_agent (agents : gmap UUID Accounts.User)
  (self : ChatSession) : option Accounts.User :=
  match assigned_agent_cached self with
  | Some a => Some a
  | None =>
      match assigned_agent self with
      | Some agent_id => agents !! agent_id
      | None => None
      end
  end.

(** [ChatSession.generate_resume_token]; [token] is what
    [secrets.token_urlsafe(32)] returned.  The method returns the
    token, the first component. *)
Definition generate_resume_token (now inserted_at : datetime)
  (token : string) (self : ChatSession) : string * ChatSession :=
  let self := set_resume_token (Some token) self in
  let self :=
    set_resume_token_expires_at (Some (now + timedelta_hours 24)) self in
  let self := save inserted_at self in
  (token, self).

(** [ChatSession.is_resume_token_valid]. *)
Definition is_resume_token_valid (now : datetime) (self : ChatSession)
  : bool :=
  if negb (truthy_str (resume_token self))
     || negb (truthy_obj (resume_token_expires_at self))
  then false
  else
    match resume_token_expires_at self with
    | Some expires => now <? expires
    | None => false
    end.

(** [ChatSession.mark_abandoned]. *)
Definition mark_abandoned (inserted_at : datetime) (self : ChatSession)
  : ChatSession :=
  if bool_decide (status self = waiting)
  then
    let self := set_is_abandoned true self in
    let self := set_status abandoned self in
    save inserted_at self
  else self.

(** [ChatSession.calculate_wait_time].  The subtraction
    [first_response_at - created_at] raises [TypeError] when
    [created_at] is [None]: the result [None].  Where the method
    reaches its [save], [created_at] is set, so that the save is an
    update of the stored row. *)
Definition calculate_wait_time (self : ChatSession) : option ChatSession :=
  match first_response_at self with
  | Some responded =>
      if bool_decide (status self ∈ [assigned; active; closed])
      then
        match created_at self with
        | Some created =>
            let delta := responded - created in
            Some (set_wait_time_seconds
                    (Some (int_total_seconds delta)) self)
        | None => None
        end
      else Some self
  | None => Some self
  end.

(** [ChatSession.close_session], over the table of agents.
    [self.assigned_agent.decrement_chat_count()] runs on the related
    object; where it decrements, its
    [save(update_fields=['current_chats_count'])] writes the object's
    new count into the row of the object's primary key. *)
Definition close_session (now inserted_at : datetime)
  (agents : gmap UUID Accounts.User) (self : ChatSession)
  : gmap UUID Accounts.User * ChatSession :=
  let self := set_status closed self in
  let self := set_closed_at (Some now) self in
  let self :=
    match created_at self with
    | Some created =>
        let delta := now - created in
        set_total_duration_seconds (Some (int_total_seconds delta)) self
    | None => self
    end in
  let self := save inserted_at self in
  match related_agent agents self with
  | Some agent =>
      let agent' := Accounts.decrement_chat_count agent in
      let agents :=
        if 0 <? Accounts.current_chats_count agent
        then alter
               (Accounts.set_current_chats_count
                  (Accounts.current_chats_count agent'))
               (Accounts.id agent) agents
        else agents in
      (agents, set_assigned_agent_cached (Some agent') self)
  | None => (agents, self)
  end.

(** The three methods of the session life cycle, as operations on the
    agents' table and one session; [None] when the method raises. *)
Inductive SessionOp : Set :=
| CloseSession (now inserted_at : datetime)
| CalculateWaitTime
| MarkAbandoned (inserted_at : datetime).

Definition session_step (op : SessionOp)
  (st : gmap UUID Accounts.User * ChatSession)
  : option (gmap UUID Accounts.User * ChatSession) :=
  match op with
  | CloseSession now inserted_at =>
      Some (close_session now inserted_at st.1 st.2)
  | CalculateWaitTime => pair st.1 <$> calculate_wait_time st.2
  | MarkAbandoned inserted_at => Some (st.1, mark_abandoned inserted_at st.2)
  end.

(** A sequence of such calls, stopping at the first one that raises. *)
Fixpoint session_run (ops : list SessionOp)
  (st : gmap UUID Accounts.User * ChatSession)
  : option (gmap UUID Accounts.User * ChatSession) :=
  match ops with
  | [] => Some st
  | op :: ops =>
      match session_step op st with
      | Some st' => session_run ops st'
      | None => None
      end
  end.

(** The timestamp invariant of the data model. *)
Definition closed_at_iff_closed (s : ChatSession) : Prop :=
  closed_at s <> None <-> status s = closed.

(** A session as [ChatSession.objects.create] makes it at time
    [created] when only the customer is passed: every other column at
    its default. *)
Definition new_session (sid : UUID) (mail : string) (created : datetime)
  : ChatSession :=
  {| id := sid;
     customer_email := mail;
     status := bot;
     priority := normal;
     assigned_agent := None;
     assigned_agent_cached := None;
     resume_token := None;
     resume_token_expires_at := None;
     is_abandoned := false;
     is_resumed := false;
     requires_followup := false;
     created_at := Some created;
     first_response_at := None;
     closed_at := None;
     wait_time_seconds := None;
     response_time_seconds := None;
     total_duration_seconds := None;
     message_count := 0 |}.

(** One second, in microseconds. *)
Definition seconds (n : Z) : datetime := n * 1000000.

(** An agent with two chats open, and the table that holds only that
    agent. *)
Definition busy_agent : Accounts.User :=
  {| Accounts.id := 1%N; Accounts.username := "john_agent";
     Accounts.email := "john@mmeink.com"; Accounts.role := Accounts.agent;
     Accounts.status := Accounts.online; Accounts.is_available := true;
     Accounts.current_chats_count := 2; Accounts.max_concurrent_chats := 5;
     Accounts.total_chats_handled := 12; Accounts.total_ratings := 0 |}.

Definition one_agent_table : gmap UUID Accounts.User :=
  {[ 1%N := busy_agent ]}.

(** A session created at time 0, answered by agent 1 after 4 seconds
    and active since, as a query returns it: the agent is not cached. *)
Definition active_session : ChatSession :=
  {| id := 7%N;
     customer_email := "carol@example.com";
     status := active;
     priority := normal;
     assigned_agent := Some 1%N;
     assigned_agent_cached := None;
     resume_token := None;
     resume_token_expires_at := None;
     is_abandoned := false;
     is_resumed := false;
     requires_followup := false;
     created_at := Some 0;
     first_response_at := Some (seconds 4);
     closed_at := None;
     wait_time_seconds := None;
     response_time_seconds := Some 4;
     total_duration_seconds := None;
     message_count := 3 |}.

(** A session assigned to agent 1, answered 4 seconds after its
    creation, whose [wait_time_seconds] already holds 3. *)
Definition timed_session : ChatSession :=
  {| id := 8%N;
     customer_email := "bob@example.com";
     status := assigned;
     priority := normal;
     assigned_agent := Some 1%N;
     assigned_agent_cached := None;
     resume_token := None;
     resume_token_expires_at := None;
     is_abandoned := false;
     is_resumed := false;
     requires_followup := false;
     created_at := Some 0;
     first_response_at := Some (seconds 4);
     closed_at := None;
     wait_time_seconds := Some 3;
     response_time_seconds := Some 4;
     total_duration_seconds := None;
     message_count := 2 |}.

(** [accounts/management/commands/create_test_data.py]: the second
    agent as [create_user] makes it, and the session made by
    [ChatSession.objects.create(status='closed',
    assigned_agent=agents[1], ...)]; every column that is not passed
    keeps its default, [closed_at] among them. *)
Definition seeded_agent : Accounts.User :=
  {| Accounts.id := 2%N; Accounts.username := "sarah_agent";
     Accounts.email := "sarah@mmeink.com"; Accounts.role := Accounts.agent;
     Accounts.status := Accounts.online; Accounts.is_available := true;
     Accounts.current_chats_count := 0; Accounts.max_concurrent_chats := 5;
     Accounts.total_chats_handled := 0; Accounts.total_ratings := 0 |}.

Definition seeded_closed_session : ChatSession :=
  {| id := 9%N;
     customer_email := "david@example.com";
     status := closed;
     priority := normal;
     assigned_agent := Some 2%N;
     assigned_agent_cached := Some seeded_agent;
     resume_token := None;
     resume_token_expires_at := None;
     is_abandoned := false;
     is_resumed := false;
     requires_followup := false;
     created_at := Some 0;
     first_response_at := None;
     closed_at := None;
     wait_time_seconds := None;
     response_time_seconds := None;
     total_duration_seconds := None;
     message_count := 0 |}.

End Chat.

(* ================================================================= *)
(** ** chat/models.py : [ChatQueue] *)

Module Queue.

(** [ChatQueue.QUEUE_STATUS_CHOICES]. *)
Inductive QueueStatus : Set := pending | assigned | expired.

#[export] Instance queue_status_eq_dec : EqDecision QueueStatus.
Proof. solve_decision. Defined.

Record ChatQueue : Set := mkChatQueue {
  id : UUID;
  session : UUID;
  priority : Z;
  queue_position : Z;
  status : QueueStatus;
  entered_queue_at : datetime;
  assigned_at : option datetime;
  wait_time_seconds : Z
}.

(** [ChatQueue.Meta.ordering = ['-priority', 'entered_queue_at']]:
    [a] is placed no later than [b] when its priority is greater, or
    the priorities are equal and it entered the queue no later. *)
Definition ordering (a b : ChatQueue) : Prop :=
  priority b < priority a
  \/ (priority a = priority b /\ entered_queue_at a <= entered_queue_at b).

#[export] Instance ordering_dec a b : Decision (ordering a b).
Proof. unfold ordering. apply _. Defined.

(** A queryset of [ChatQueue] rows in the default ordering: the rows
    sorted by [Meta.ordering]. *)
Definition all_ordered (rows : list ChatQueue) : list ChatQueue :=
  merge_sort ordering rows.

(** [ChatQueue.objects.filter(status='pending')], in the default
    ordering. *)
Definition pending_ordered (rows : list ChatQueue) : list ChatQueue :=
  all_ordered (filter (fun e => status e = pending) rows).

(** [.first()] of that queryset: the entry a dequeue takes. *)
Definition first_pending (rows : list ChatQueue) : option ChatQueue :=
  head (pending_ordered rows).

(** [a] is taken from the queue before [b]: it stands earlier in the
    ordered queryset. *)
Definition dequeued_before (rows : list ChatQueue) (a b : ChatQueue) : Prop :=
  exists l1 l2 l3, pending_ordered rows = l1 ++ a :: l2 ++ b :: l3.

Definition entry (k : UUID) (prio : Z) (st : QueueStatus)
  (entered : datetime) : ChatQueue :=
  {| id := k; session := k; priority := prio; queue_position := 0;
     status := st; entered_queue_at := entered; assigned_at := None;
     wait_time_seconds := 0 |}.

(** The number that a session's priority band becomes in
    [ChatQueue.priority] is assigned outside these models; the
    statements about bands take it as a parameter.  One assignment
    with urgent > high > normal > low: *)
Definition band_value (p : Chat.Priority) : Z :=
  match p with
  | Chat.low => 0
  | Chat.normal => 1
  | Chat.high => 2
  | Chat.urgent => 3
  end.

(** A normal-priority entry that entered at second 1, an urgent one
    that entered at second 5, and an entry already assigned. *)
Definition normal_entry : ChatQueue :=
  entry 21%N (band_value Chat.normal) pending 1000000.
Definition urgent_entry : ChatQueue :=
  entry 22%N (band_value Chat.urgent) pending 5000000.
Definition taken_entry : ChatQueue :=
  entry 23%N (band_value Chat.urgent) assigned 0.

Definition queue_rows : list ChatQueue :=
  [normal_entry; taken_entry; urgent_entry].

End Queue.

(* ================================================================= *)
(** ** chat/models.py : [Message] *)

Module Messages.

(** [Message.SENDER_TYPE_CHOICES]. *)
Inductive SenderType : Set := customer | bot | agent | system.

(** [Message.DELIVERY_STATUS_CHOICES]. *)
Inductive DeliveryStatus : Set := sent | delivered | read | failed.

#[export] Instance delivery_status_eq_dec : EqDecision DeliveryStatus.
Proof. solve_decision. Defined.

(** [created_at] is [None] until the first save ([auto_now_add]). *)
Record Message : Set := mkMessage {
  id : UUID;
  session : UUID;
  sender_type : SenderType;
  sender_name : string;
  sender : option UUID;
  message : string;
  delivery_status : DeliveryStatus;
  is_read : bool;
  read_at : option datetime;
  is_internal : bool;
  created_at : option datetime
}.

Definition set_is_read (v : bool) (m : Message) : Message :=
  {| id := id m; session := session m; sender_type := sender_type m;
     sender_name := sender_name m; sender := sender m; message := message m;
     delivery_status := delivery_status m; is_read := v;
     read_at := read_at m; is_internal := is_internal m;
     created_at := created_at m |}.

Definition set_read_at (v : option datetime) (m : Message) : Message :=
  {| id := id m; session := session m; sender_type := sender_type m;
     sender_name := sender_name m; sender := sender m; message := message m;
     delivery_status := delivery_status m; is_read := is_read m;
     read_at := v; is_internal := is_internal m;
     created_at := created_at m |}.

Definition set_delivery_status (v : DeliveryStatus) (m : Message) : Message :=
  {| id := id m; session := session m; sender_type := sender_type m;
     sender_name := sender_name m; sender := sender m; message := message m;
     delivery_status := v; is_read := is_read m;
     read_at := read_at m; is_internal := is_internal m;
     created_at := created_at m |}.

Definition set_created_at (v : option datetime) (m : Message) : Message :=
  {| id := id m; session := session m; sender_type := sender_type m;
     sender_name := sender_name m; sender := sender m; message := message m;
     delivery_status := delivery_status m; is_read := is_read m;
     read_at := read_at m; is_internal := is_internal m;
     created_at := v |}.

(** [self.save(update_fields=[...])]: an update on a stored message; a
    message never saved is inserted, and [auto_now_add] sets
    [created_at] to the time of the insert. *)
Definition save (inserted_at : datetime) (self : Message) : Message :=
  match created_at self with
  | Some _ => self
  | None => set_created_at (Some inserted_at) self
  end.

(** [Message.mark_as_read]. *)
Definition mark_as_read (now inserted_at : datetime) (self : Message)
  : Message :=
  if negb (is_read self)
  then
    let self := set_is_read true self in
    let self := set_read_at (Some now) self in
    let self := set_delivery_status read self in
    save inserted_at self
  else self.

(** A message is consistently read when its three read columns agree. *)
Definition read_consistent (m : Message) : Prop :=
  is_read m = true -> delivery_status m = read /\ read_at m <> None.

(** A message of a customer as [Message.objects.create] stores it:
    [delivery_status='sent'], [is_read=False]. *)
Definition unread_message : Message :=
  {| id := 31%N; session := 7%N; sender_type := customer;
     sender_name := "Carol White";
     sender := None; message := "Hello, I need help with my order.";
     delivery_status := sent; is_read := false; read_at := None;
     is_internal := false; created_at := Some 0 |}.

End Messages.

(* ================================================================= *)
(** ** chat/models.py : [ChatHold] *)

Module Holds.

(** [ChatHold.HOLD_REASON_CHOICES]. *)
Inductive HoldReason : Set :=
  research | escalation | technical | customer_request | other.

(** [held_at] is [None] until the first save ([auto_now_add]). *)
Record ChatHold : Set := mkChatHold {
  id : UUID;
  session : UUID;
  agent : option UUID;
  reason : HoldReason;
  notes : option string;
  held_at : option datetime;
  resumed_at : option datetime;
  hold_duration_seconds : option Z
}.

Definition set_held_at (v : option datetime) (h : ChatHold) : ChatHold :=
  {| id := id h; session := session h; agent := agent h; reason := reason h;
     notes := notes h; held_at := v; resumed_at := resumed_at h;
     hold_duration_seconds := hold_duration_seconds h |}.

Definition set_resumed_at (v : option datetime) (h : ChatHold) : ChatHold :=
  {| id := id h; session := session h; agent := agent h; reason := reason h;
     notes := notes h; held_at := held_at h; resumed_at := v;
     hold_duration_seconds := hold_duration_seconds h |}.

Definition set_hold_duration_seconds (v : option Z) (h : ChatHold)
  : ChatHold :=
  {| id := id h; session := session h; agent := agent h; reason := reason h;
     notes := notes h; held_at := held_at h; resumed_at := resumed_at h;
     hold_duration_seconds := v |}.

(** [self.save(update_fields=[...])]: an update on a stored hold; a hold
    never saved is inserted, and [auto_now_add] sets [held_at] to the
    time of the insert. *)
Definition save (inserted_at : datetime) (self : ChatHold) : ChatHold :=
  match held_at self with
  | Some _ => self
  | None => set_held_at (Some inserted_at) self
  end.

(** [ChatHold.resume]. *)
Definition resume (now inserted_at : datetime) (self : ChatHold) : ChatHold :=
  let self := set_resumed_at (Some now) self in
  let self :=
    match held_at self with
    | Some held =>
        let delta := now - held in
        set_hold_duration_seconds (Some (int_total_seconds delta)) self
    | None => self
    end in
  save inserted_at self.

(** A hold placed at second 100 and still open, and a hold that was
    built but never saved. *)
Definition open_hold : ChatHold :=
  {| id := 41%N; session := 7%N; agent := Some 1%N; reason := research;
     notes := None; held_at := Some 100000000; resumed_at := None;
     hold_duration_seconds := None |}.

Definition unsaved_hold : ChatHold :=
  {| id := 42%N; session := 7%N; agent := Some 1%N; reason := technical;
     notes := None; held_at := None; resumed_at := None;
     hold_duration_seconds := None |}.

End Holds.

(* ================================================================= *)
(** ** chat/models.py : [ChatQueue.calculate_wait_time] *)

Module QueueWait.
Import Queue.

Definition set_wait_time_seconds (v : Z) (q : ChatQueue) : ChatQueue :=
  {| id := id q; session := session q; priority := priority q;
     queue_position := queue_position q; status := status q;
     entered_queue_at := entered_queue_at q; assigned_at := assigned_at q;
     wait_time_seconds := v |}.

(** [ChatQueue.calculate_wait_time]: the value returned, and the entry
    after the call. *)
Definition calculate_wait_time (now : datetime) (self : ChatQueue)
  : Z * ChatQueue :=
  if bool_decide (status self = pending)
  then
    let delta := now - entered_queue_at self in
    let self := set_wait_time_seconds (int_total_seconds delta) self in
    (wait_time_seconds self, self)
  else (wait_time_seconds self, self).

End QueueWait.

(* ================================================================= *)
(** ** chat/models.py : [CannedResponse] *)

Module Canned.

(** [CannedResponse.CATEGORY_CHOICES]. *)
Inductive Category : Set :=
  greeting | closing | common_issue | escalation | hold | custom.

Record CannedResponse : Set := mkCannedResponse {
  id : UUID;
  title : string;
  category : Category;
  message : string;
  shortcut : option string;
  created_by : option UUID;
  is_global : bool;
  usage_count : Z
}.

Definition set_usage_count (v : Z) (c : CannedResponse) : CannedResponse :=
  {| id := id c; title := title c; category := category c;
     message := message c; shortcut := shortcut c;
     created_by := created_by c; is_global := is_global c;
     usage_count := v |}.

(** [CannedResponse.increment_usage]. *)
Definition increment_usage (self : CannedResponse) : CannedResponse :=
  set_usage_count (usage_count self + 1) self.

End Canned.

(* ================================================================= *)
(** ** chat/models.py : [ChatRating] *)

Module Ratings.

Record ChatRating : Set := mkChatRating {
  id : UUID;
  session : UUID;
  agent : option UUID;
  rating : Z;
  feedback : option string;
  response_time_rating : option Z;
  helpfulness_rating : option Z;
  professionalism_rating : option Z
}.

Definition set_total_ratings (v : Z) (u : Accounts.User) : Accounts.User :=
  {| Accounts.id := Accounts.id u; Accounts.username := Accounts.username u;
     Accounts.email := Accounts.email u; Accounts.role := Accounts.role u;
     Accounts.status := Accounts.status u;
     Accounts.is_available := Accounts.is_available u;
     Accounts.current_chats_count := Accounts.current_chats_count u;
     Accounts.max_concurrent_chats := Accounts.max_concurrent_chats u;
     Accounts.total_chats_handled := Accounts.total_chats_handled u;
     Accounts.total_ratings := v |}.

(** The [session] column is a [OneToOneField]: a row with another
    primary key already rates the same session. *)
Definition session_rated_elsewhere (self : ChatRating)
  (ratings : gmap UUID ChatRating) : Prop :=
  map_Exists (fun k r => k <> id self /\ session r = session self) ratings.

#[export] Instance session_rated_elsewhere_dec self ratings :
  Decision (session_rated_elsewhere self ratings).
Proof. unfold session_rated_elsewhere. apply _. Defined.

(** [super().save()]: the row is inserted, or updated when its primary
    key is already stored; the unique constraint on [session] makes it
    raise [IntegrityError] ([None]) and store nothing. *)
Definition model_save (self : ChatRating) (ratings : gmap UUID ChatRating)
  : option (gmap UUID ChatRating) :=
  if decide (session_rated_elsewhere self ratings)
  then None
  else Some (<[id self := self]> ratings).

(** [ChatRating.objects.filter(agent=a)]. *)
Definition filter_agent (a : UUID) (ratings : gmap UUID ChatRating)
  : gmap UUID ChatRating :=
  filter (fun kr => agent kr.2 = Some a) ratings.

(** [ChatRating.save], over the tables of ratings and of agents.  Of the
    two columns the method writes into the agent's row, [total_ratings]
    is a column of [User] here; [average_rating], a [Decimal] obtained
    by rounding a floating-point average, is not, and nothing below
    speaks of it. *)
Definition save (self : ChatRating)
  (db : gmap UUID ChatRating * gmap UUID Accounts.User)
  : option (gmap UUID ChatRating * gmap UUID Accounts.User) :=
  match model_save self db.1 with
  | Some ratings =>
      match agent self with
      | Some agent_id =>
          let total_ratings :=
            Z.of_nat (size (filter_agent agent_id ratings)) in
          Some (ratings, alter (set_total_ratings total_ratings) agent_id db.2)
      | None => Some (ratings, db.2)
      end
  | None => None
  end.

(** The rating of session 7 and the rating of session 8, both for
    agent 1. *)
Definition first_rating : ChatRating :=
  {| id := 51%N; session := 7%N; agent := Some 1%N; rating := 5;
     feedback := None; response_time_rating := None;
     helpfulness_rating := None; professionalism_rating := None |}.

Definition second_rating : ChatRating :=
  {| id := 52%N; session := 8%N; agent := Some 1%N; rating := 3;
     feedback := None; response_time_rating := None;
     helpfulness_rating := None; professionalism_rating := None |}.

End Ratings.

(* ================================================================= *)
(** ** chat/admin.py : list columns *)

Module Admin.

(** Python truth value of a nullable [IntegerField]: [None] and [0] are
    false. *)
Definition truthy_int (o : option Z) : bool :=
  match o with
  | Some v => negb (v =? 0)
  | None => false
  end.

(** What a minutes column shows for a stored number of seconds: a dash
    for a null or zero value, else the whole minutes, rounded down,
    followed by [min]. *)
Definition shows_minutes (seconds : option Z) (text : string) : Prop :=
  (text = "-" <-> seconds = None \/ seconds = Some 0)
  /\ (forall w : Z, seconds = Some w -> w <> 0 ->
      exists m : Z,
        text = pretty m +:+ " min" /\ 60 * m <= w < 60 * m + 60).

(** The f-string [f"{seconds // 60} min"]; [//] is floor division. *)
Definition minutes_text (seconds : Z) : string :=
  pretty (seconds `div` 60) +:+ " min".

(** [ChatSessionAdmin.wait_time_minutes]. *)
Definition wait_time_minutes (obj : Chat.ChatSession) : string :=
  match Chat.wait_time_seconds obj with
  | Some seconds =>
      if truthy_int (Some seconds) then minutes_text seconds else "-"
  | None => "-"
  end.

(** [ChatHoldAdmin.hold_duration_minutes]. *)
Definition hold_duration_minutes (obj : Holds.ChatHold) : string :=
  match Holds.hold_duration_seconds obj with
  | Some seconds =>
      if truthy_int (Some seconds) then minutes_text seconds else "-"
  | None => "-"
  end.

(** [ChatQueueAdmin.wait_time_minutes]; the column is not nullable. *)
Definition queue_wait_time_minutes (obj : Queue.ChatQueue) : string :=
  if truthy_int (Some (Queue.wait_time_seconds obj))
  then minutes_text (Queue.wait_time_seconds obj)
  else "-".

(** [MessageAdmin.message_preview]: the text itself up to 50
    characters, else its first 50 characters followed by three dots.  A
    character is an element of the string. *)
Definition message_preview (obj : Messages.Message) : string :=
  if (50 <? String.length (Messages.message obj))%nat
  then substring 0 50 (Messages.message obj) +:+ "..."
  else Messages.message obj.

End Admin.

(* ================================================================= *)
(** ** Counting registry calls *)

Module RegistryCalls.
Import Accounts.

#[export] Instance registry_op_eq_dec : EqDecision RegistryOp.
Proof. solve_decision. Defined.

(** The number of calls of the kind [op] in a sequence of calls. *)
Definition calls (op : RegistryOp) (ops : list RegistryOp) : Z :=
  Z.of_nat (length (filter (fun o => o = op) ops)).

End RegistryCalls.

(* ================================================================= *)
(** * Properties of the conversion to whole seconds *)

Module SecondsFacts.

Lemma round_half_even_bounds (num den : Z) :
  num / den <= round_half_even num den <= num / den + 1.
Proof.
  unfold round_half_even.
  destruct (2 * (num mod den) <? den); [lia |].
  destruct (den <? 2 * (num mod den)); [lia |].
  destruct (Z.even (num / den)); lia.
Qed.

Lemma round_half_even_mono (num1 num2 den : Z) :
  0 < den -> num1 <= num2 ->
  round_half_even num1 den <= round_half_even num2 den.
Proof.
  intros Hden Hle.
  assert (Hq : num1 / den <= num2 / den) by (apply Z.div_le_mono; lia).
  destruct (Z.eq_dec (num1 / den) (num2 / den)) as [Heq | Hne].
  - assert (Hr : num1 mod den <= num2 mod den).
    { pose proof (Z.div_mod num1 den). pose proof (Z.div_mod num2 den).
      rewrite Heq in *. nia. }
    unfold round_half_even. rewrite Heq.
    destruct (Z.ltb_spec (2 * (num1 mod den)) den);
      destruct (Z.ltb_spec (2 * (num2 mod den)) den);
      destruct (Z.ltb_spec den (2 * (num1 mod den)));
      destruct (Z.ltb_spec den (2 * (num2 mod den)));
      destruct (Z.even (num2 / den)); lia.
  - pose proof (round_half_even_bounds num1 den).
    pose proof (round_half_even_bounds num2 den). lia.
Qed.

Lemma round_half_even_cancel (a b c : Z) :
  0 < b -> 0 < c -> round_half_even (a * c) (b * c) = round_half_even a b.
Proof.
  intros Hb Hc. unfold round_half_even.
  rewrite Z.div_mul_cancel_r by lia.
  rewrite Z.mul_mod_distr_r by lia.
  replace (2 * (a mod b * c) <? b * c) with (2 * (a mod b) <? b).
  2:{ destruct (Z.ltb_spec (2 * (a mod b)) b);
      destruct (Z.ltb_spec (2 * (a mod b * c)) (b * c)); try reflexivity; nia. }
  replace (b * c <? 2 * (a mod b * c)) with (b <? 2 * (a mod b)).
  2:{ destruct (Z.ltb_spec b (2 * (a mod b)));
      destruct (Z.ltb_spec (b * c) (2 * (a mod b * c))); try reflexivity; nia. }
  reflexivity.
Qed.

(** For [n > 0], with [L := quotient_bits n]:
    [10^6 * 2^L <= n * 2^20 < 10^6 * 2^(L+1)]. *)
Lemma quotient_bits_spec (n : Z) :
  0 < n ->
  0 <= quotient_bits n
  /\ us_per_second * 2 ^ quotient_bits n <= n * 2 ^ 20
     < us_per_second * 2 ^ (quotient_bits n + 1).
Proof.
  intros Hn. unfold quotient_bits, us_per_second.
  set (y := n * 2 ^ 20 / 1000000).
  assert (Hy : 1 <= y).
  { unfold y. apply Z.div_le_lower_bound; lia. }
  pose proof (Z.log2_spec y ltac:(lia)) as [Hlo Hhi].
  pose proof (Z.log2_nonneg y) as Hnn.
  replace (Z.succ (Z.log2 y)) with (Z.log2 y + 1) in Hhi by lia.
  pose proof (Z.mul_div_le (n * 2 ^ 20) 1000000 ltac:(lia)) as Hd1.
  pose proof (Z.mul_succ_div_gt (n * 2 ^ 20) 1000000 ltac:(lia)) as Hd2.
  fold y in Hd1, Hd2.
  split; [exact Hnn |]. lia.
Qed.

Lemma quotient_bits_mono (n1 n2 : Z) :
  0 < n1 -> n1 <= n2 -> quotient_bits n1 <= quotient_bits n2.
Proof.
  intros Hpos Hle. unfold quotient_bits.
  apply Z.log2_le_mono. apply Z.div_le_mono; unfold us_per_second; lia.
Qed.

Lemma nearest_significand_range (n : Z) :
  0 < n -> 2 ^ 52 <= nearest_significand n <= 2 ^ 53.
Proof.
  intros Hn. destruct (quotient_bits_spec n Hn) as (HL & Hlo & Hhi).
  unfold nearest_significand.
  set (L := quotient_bits n) in *.
  assert (Hp : 0 < 2 ^ L) by (apply Z.pow_pos_nonneg; lia).
  rewrite Z.pow_add_r in Hhi by lia. change (2 ^ 1) with 2 in Hhi.
  pose proof (round_half_even_bounds (n * 2 ^ 72) (us_per_second * 2 ^ L))
    as [Hb1 Hb2].
  assert (Hden : 0 < us_per_second * 2 ^ L) by (unfold us_per_second; lia).
  assert (H52 : 2 ^ 52 <= n * 2 ^ 72 / (us_per_second * 2 ^ L)).
  { apply Z.div_le_lower_bound; [lia |].
    change (2 ^ 72) with (2 ^ 20 * 2 ^ 52). nia. }
  assert (H53 : n * 2 ^ 72 / (us_per_second * 2 ^ L) < 2 ^ 53).
  { apply Z.div_lt_upper_bound; [lia |].
    change (2 ^ 72) with (2 ^ 20 * 2 ^ 52). change (2 ^ 53) with (2 * 2 ^ 52).
    nia. }
  lia.
Qed.

Lemma int_of_float_nonneg (n : Z) : 0 < n -> 0 <= int_of_float n.
Proof.
  intros Hn. unfold int_of_float.
  destruct (quotient_bits_spec n Hn) as (HL & _).
  pose proof (nearest_significand_range n Hn).
  apply Z.div_pos; [| lia].
  apply Z.mul_nonneg_nonneg; [lia |]. apply Z.pow_nonneg. lia.
Qed.

Lemma int_of_float_mono (n1 n2 : Z) :
  0 < n1 -> n1 <= n2 -> int_of_float n1 <= int_of_float n2.
Proof.
  intros Hpos Hle. unfold int_of_float.
  apply Z.div_le_mono; [lia |].
  destruct (quotient_bits_spec n1 Hpos) as (HL1 & _).
  pose proof (quotient_bits_mono n1 n2 Hpos Hle) as HL.
  pose proof (nearest_significand_range n1 Hpos) as [_ Hm1].
  pose proof (nearest_significand_range n2 ltac:(lia)) as [Hm2 _].
  destruct (Z.eq_dec (quotient_bits n1) (quotient_bits n2)) as [Heq | Hne].
  - unfold nearest_significand. rewrite Heq.
    apply Z.mul_le_mono_nonneg_r; [apply Z.pow_nonneg; lia |].
    apply round_half_even_mono; [| lia].
    assert (0 < 2 ^ quotient_bits n2) by (apply Z.pow_pos_nonneg; lia).
    unfold us_per_second. lia.
  - assert (Hstep : 2 * 2 ^ quotient_bits n1 <= 2 ^ quotient_bits n2).
    { replace (2 * 2 ^ quotient_bits n1) with (2 ^ (quotient_bits n1 + 1))
        by (rewrite Z.pow_add_r by lia; change (2 ^ 1) with 2; lia).
      apply Z.pow_le_mono_r; lia. }
    assert (0 < 2 ^ quotient_bits n1) by (apply Z.pow_pos_nonneg; lia).
    change (2 ^ 53) with (2 * 2 ^ 52) in Hm1.
    transitivity (2 ^ 52 * (2 * 2 ^ quotient_bits n1)); [nia |].
    transitivity (2 ^ 52 * 2 ^ quotient_bits n2); [nia | nia].
Qed.

Lemma int_of_float_exact (n : Z) :
  0 < n < 2 ^ 34 * us_per_second -> int_of_float n = n / us_per_second.
Proof.
  intros [Hpos Hlt].
  destruct (quotient_bits_spec n Hpos) as (HL & Hlo & _).
  unfold int_of_float, nearest_significand.
  set (L := quotient_bits n) in *.
  assert (HL54 : L < 54).
  { apply (Z.pow_lt_mono_r_iff 2); [lia | lia |].
    unfold us_per_second in *. change (2 ^ 54) with (2 ^ 34 * 2 ^ 20). nia. }
  set (s := 72 - L).
  assert (Hs : 19 <= s) by (unfold s; lia).
  assert (H72 : 2 ^ 72 = 2 ^ s * 2 ^ L).
  { rewrite <- Z.pow_add_r by lia. f_equal. unfold s. lia. }
  assert (HpL : 0 < 2 ^ L) by (apply Z.pow_pos_nonneg; lia).
  assert (HX : 2 ^ 19 <= 2 ^ s) by (apply Z.pow_le_mono_r; lia).
  rewrite H72, Z.mul_assoc.
  rewrite round_half_even_cancel by (unfold us_per_second; lia).
  rewrite Z.div_mul_cancel_r by lia.
  set (X := 2 ^ s) in *. change (2 ^ 19) with 524288 in HX.
  unfold us_per_second in *.
  pose proof (Z.div_mod n 1000000 ltac:(lia)) as Hn.
  pose proof (Z.mod_pos_bound n 1000000 ltac:(lia)) as Hr.
  set (k := n / 1000000) in *. set (r := n mod 1000000) in *.
  symmetry.
  apply (Z.div_unique _ _ _ (round_half_even (n * X) 1000000 - k * X)).
  - left. 
    pose proof (Z.div_mod (n * X) 1000000 ltac:(lia)) as Hm.
    pose proof (Z.mod_pos_bound (n * X) 1000000 ltac:(lia)) as Hrr.
    unfold round_half_even.
    set (m0 := n * X / 1000000) in *. set (rr := (n * X) mod 1000000) in *.
    assert (Hm0lo : k * X <= m0) by nia.
    assert (Hm0hi : m0 < (k + 1) * X) by nia.
    destruct (Z.ltb_spec (2 * rr) 1000000) as [Hdown | Hup]; [lia |].
    assert (m0 + 1 < (k + 1) * X) by nia.
    destruct (1000000 <? 2 * rr); [lia |].
    destruct (Z.even m0); lia.
  - lia.
Qed.

Lemma int_total_seconds_exact (delta : timedelta) :
  - (2 ^ 34 * us_per_second) < delta < 2 ^ 34 * us_per_second ->
  int_total_seconds delta = Z.quot delta us_per_second.
Proof.
  intros Hrange. destruct delta as [| p | p]; simpl int_total_seconds.
  - reflexivity.
  - rewrite int_of_float_exact by lia.
    rewrite Z.quot_div_nonneg by (unfold us_per_second; lia).
    reflexivity.
  - change (- Z.neg p) with (Z.pos p).
    rewrite int_of_float_exact by lia.
    change (Z.neg p) with (- Z.pos p).
    rewrite Z.quot_opp_l by (unfold us_per_second; lia).
    rewrite Z.quot_div_nonneg by (unfold us_per_second; lia).
    reflexivity.
Qed.

Lemma int_total_seconds_sign (delta : timedelta) :
  (0 <= delta -> 0 <= int_total_seconds delta)
  /\ (delta <= 0 -> int_total_seconds delta <= 0).
Proof.
  destruct delta as [| p | p]; simpl int_total_seconds.
  - lia.
  - pose proof (int_of_float_nonneg (Z.pos p)). lia.
  - pose proof (int_of_float_nonneg (- Z.neg p)). lia.
Qed.

Lemma int_total_seconds_mono (d1 d2 : timedelta) :
  d1 <= d2 -> int_total_seconds d1 <= int_total_seconds d2.
Proof.
  intros Hle.
  pose proof (int_total_seconds_sign d1) as [Hp1 Hn1].
  pose proof (int_total_seconds_sign d2) as [Hp2 Hn2].
  destruct d1 as [| p1 | p1], d2 as [| p2 | p2]; try lia.
  - simpl. apply int_of_float_mono; lia.
  - simpl.
    pose proof (int_of_float_mono (- Z.neg p2) (- Z.neg p1)). lia.
Qed.

Lemma int_total_seconds_bounds (delta : timedelta) :
  0 <= delta < 2 ^ 34 * us_per_second ->
  us_per_second * int_total_seconds delta <= delta
  < us_per_second * (int_total_seconds delta + 1).
Proof.
  intros Hrange. rewrite int_total_seconds_exact by lia.
  rewrite Z.quot_div_nonneg by (unfold us_per_second; lia).
  pose proof (Z.mul_div_le delta us_per_second).
  pose proof (Z.mul_succ_div_gt delta us_per_second).
  unfold us_per_second in *. lia.
Qed.

(** Beyond that range the double nearest to the quotient can be the
    next whole number: [2^34] seconds less one microsecond short of the
    following second convert to that following second. *)
Lemma int_total_seconds_beyond_range :
  int_total_seconds 17179869184999999 = 17179869185
  /\ Z.quot 17179869184999999 us_per_second = 17179869184
  /\ int_total_seconds 999999 = 0
  /\ int_total_seconds (- 1999999) = - 1.
Proof. repeat split; vm_compute; reflexivity. Qed.

End SecondsFacts.

(* ================================================================= *)
(** * Properties of the agent registry *)

Module AccountsFacts.
Import Accounts.

Lemma increment_fields (a : User) :
  increment_chat_count a =
  {| id := id a; username := username a; email := email a; role := role a;
     status := status a; is_available := is_available a;
     current_chats_count := current_chats_count a + 1;
     max_concurrent_chats := max_concurrent_chats a;
     total_chats_handled := total_chats_handled a + 1;
     total_ratings := total_ratings a |}.
Proof. reflexivity. Qed.

Lemma decrement_count (a : User) :
  current_chats_count (decrement_chat_count a) =
  if 0 <? current_chats_count a
  then current_chats_count a - 1 else current_chats_count a.
Proof. unfold decrement_chat_count. by destruct (0 <? _). Qed.

Lemma decrement_positive (a : User) :
  0 < current_chats_count a ->
  current_chats_count (decrement_chat_count a) = current_chats_count a - 1.
Proof.
  intros Hpos. rewrite decrement_count.
  destruct (Z.ltb_spec 0 (current_chats_count a)); [done | lia].
Qed.

Lemma decrement_not_positive (a : User) :
  current_chats_count a <= 0 -> decrement_chat_count a = a.
Proof.
  intros Hle. unfold decrement_chat_count.
  destruct (Z.ltb_spec 0 (current_chats_count a)); [lia | done].
Qed.

Lemma decrement_total (a : User) :
  total_chats_handled (decrement_chat_count a) = total_chats_handled a.
Proof. unfold decrement_chat_count. by destruct (0 <? _). Qed.

Lemma can_accept_chat_true (a : User) :
  can_accept_chat a = true <->
  is_available a = true /\ status a = online
  /\ current_chats_count a < max_concurrent_chats a.
Proof.
  unfold can_accept_chat.
  rewrite !andb_true_iff, bool_decide_eq_true, Z.ltb_lt. tauto.
Qed.

Lemma registry_step_total (a : User) (op : RegistryOp) :
  total_chats_handled a <= total_chats_handled (registry_step a op).
Proof.
  destruct op; simpl.
  - lia.
  - rewrite decrement_total. lia.
Qed.

(** C2, the counterexample: the agent at 5 of 5 satisfies the capacity
    invariant, and [increment_chat_count] takes it to 6 of 5. *)
Lemma increment_at_capacity_breaks_invariant :
  chat_count_invariant full_agent
  /\ current_chats_count (increment_chat_count full_agent) = 6
  /\ ~ chat_count_invariant (increment_chat_count full_agent).
Proof.
  unfold chat_count_invariant. simpl. repeat split; lia.
Qed.

(** C2, as amended: on an agent that satisfies
    [0 <= current_chats_count <= max_concurrent_chats],
    [decrement_chat_count] keeps the invariant and changes nothing when
    the count is 0; [increment_chat_count] has no guard of its own: it
    keeps the lower bound, and keeps the upper bound exactly when
    [current_chats_count < max_concurrent_chats] held before the call,
    which is what [can_accept_chat] tests. *)
Theorem chat_count_invariant_registry (a : User) :
  chat_count_invariant a ->
  chat_count_invariant (decrement_chat_count a)
  /\ (current_chats_count a = 0 -> decrement_chat_count a = a)
  /\ 0 <= current_chats_count (increment_chat_count a)
  /\ (chat_count_invariant (increment_chat_count a)
      <-> current_chats_count a < max_concurrent_chats a)
  /\ (can_accept_chat a = true ->
      chat_count_invariant (increment_chat_count a)).
Proof.
  unfold chat_count_invariant. intros [Hlo Hhi].
  split; [| split; [| split; [| split]]].
  - unfold decrement_chat_count.
    destruct (Z.ltb_spec 0 (current_chats_count a)); simpl; lia.
  - intros Hz. apply decrement_not_positive. lia.
  - simpl. lia.
  - simpl. lia.
  - intros Hok%can_accept_chat_true. simpl. lia.
Qed.

Lemma chat_count_invariant_registry_witness :
  chat_count_invariant idle_agent
  /\ chat_count_invariant (decrement_chat_count idle_agent)
  /\ chat_count_invariant (increment_chat_count idle_agent).
Proof.
  assert (Hinv : chat_count_invariant idle_agent)
    by (unfold chat_count_invariant; simpl; lia).
  destruct (chat_count_invariant_registry idle_agent Hinv)
    as (Hdec & _ & _ & _ & Hinc).
  split; [exact Hinv | split; [exact Hdec | apply Hinc; reflexivity]].
Defined.

(** C3: the reserve operation succeeds exactly when [is_available] is
    true, [status] is ['online'] and
    [current_chats_count < max_concurrent_chats] held beforehand; when
    it succeeds the agent afterwards has [current_chats_count] and
    [total_chats_handled] each one higher and every other field as
    before; when it fails the agent is unchanged. *)
Theorem tryReserveSlot_checks_before_mutating (a : User) :
  ((tryReserveSlot a).1 = true <->
     is_available a = true /\ status a = online
     /\ current_chats_count a < max_concurrent_chats a)
  /\ ((tryReserveSlot a).1 = true ->
      (tryReserveSlot a).2 =
      {| id := id a; username := username a; email := email a;
         role := role a; status := status a;
         is_available := is_available a;
         current_chats_count := current_chats_count a + 1;
         max_concurrent_chats := max_concurrent_chats a;
         total_chats_handled := total_chats_handled a + 1;
         total_ratings := total_ratings a |})
  /\ ((tryReserveSlot a).1 = false -> (tryReserveSlot a).2 = a).
Proof.
  rewrite <- can_accept_chat_true. unfold tryReserveSlot.
  destruct (can_accept_chat a); simpl.
  - split; [tauto | split; [intros _; apply increment_fields | discriminate]].
  - split; [tauto | split; [discriminate | reflexivity]].
Qed.

(** C10: [decrement_chat_count] leaves every field other than
    [current_chats_count] as it was, [total_chats_handled] among them,
    and over any sequence of [increment_chat_count] and
    [decrement_chat_count] calls [total_chats_handled] never goes
    down. *)
Theorem decrement_frame_total_monotone (a : User) (ops : list RegistryOp) :
  let a' := decrement_chat_count a in
  (id a' = id a /\ username a' = username a /\ email a' = email a
   /\ role a' = role a /\ status a' = status a
   /\ is_available a' = is_available a
   /\ max_concurrent_chats a' = max_concurrent_chats a
   /\ total_chats_handled a' = total_chats_handled a
   /\ total_ratings a' = total_ratings a)
  /\ total_chats_handled (increment_chat_count a) = total_chats_handled a + 1
  /\ total_chats_handled a <= total_chats_handled (registry_run ops a).
Proof.
  simpl. split; [| split].
  - unfold decrement_chat_count. destruct (0 <? _); simpl; tauto.
  - reflexivity.
  - unfold registry_run. revert a.
    induction ops as [| op ops IH]; intros a; simpl.
    + lia.
    + etransitivity; [apply (registry_step_total a op) | apply IH].
Qed.

End AccountsFacts.

(* ================================================================= *)
(** * Properties of the session life cycle *)

Module ChatFacts.
Import Chat.

Implicit Types (s : ChatSession) (agents : gmap UUID Accounts.User).
Implicit Types (now inserted_at : datetime).

(** ** [close_session], field by field *)

(** The session after [close_session]. *)
Lemma close_session_session now inserted_at agents s :
  (close_session now inserted_at agents s).2 =
  let closing := set_closed_at (Some now) (set_status closed s) in
  let timed :=
    match created_at s with
    | Some created =>
        set_total_duration_seconds
          (Some (int_total_seconds (now - created))) closing
    | None => closing
    end in
  set_assigned_agent_cached
    (Accounts.decrement_chat_count <$> related_agent agents s)
    (save inserted_at timed).
Proof.
  destruct s as [? ? ? ? [aid |] [cached |] ? ? ? ? ? [created |] ? ? ? ? ? ?];
    unfold close_session, related_agent, save; simpl;
    try reflexivity; by destruct (agents !! aid).
Qed.

(** The agents' table after [close_session]. *)
Lemma close_session_agents now inserted_at agents s :
  (close_session now inserted_at agents s).1 =
  match related_agent agents s with
  | Some a =>
      if 0 <? Accounts.current_chats_count a
      then alter
             (Accounts.set_current_chats_count
                (Accounts.current_chats_count
                   (Accounts.decrement_chat_count a)))
             (Accounts.id a) agents
      else agents
  | None => agents
  end.
Proof.
  destruct s as [? ? ? ? [aid |] [cached |] ? ? ? ? ? [created |] ? ? ? ? ? ?];
    unfold close_session, related_agent, save; simpl;
    try reflexivity; by destruct (agents !! aid).
Qed.

Lemma decrement_id (a : Accounts.User) :
  Accounts.id (Accounts.decrement_chat_count a) = Accounts.id a.
Proof. unfold Accounts.decrement_chat_count. by destruct (0 <? _). Qed.

Lemma decrement_fixed (a : Accounts.User) :
  Accounts.decrement_chat_count a = a <-> Accounts.current_chats_count a <= 0.
Proof.
  split.
  - intros Heq. apply (f_equal Accounts.current_chats_count) in Heq.
    rewrite AccountsFacts.decrement_count in Heq.
    destruct (Z.ltb_spec 0 (Accounts.current_chats_count a)); lia.
  - apply AccountsFacts.decrement_not_positive.
Qed.

Lemma decrement_as_set (a : Accounts.User) :
  0 < Accounts.current_chats_count a ->
  Accounts.decrement_chat_count a
  = Accounts.set_current_chats_count (Accounts.current_chats_count a - 1) a.
Proof.
  intros Hpos. unfold Accounts.decrement_chat_count.
  destruct (Z.ltb_spec 0 (Accounts.current_chats_count a)); [done | lia].
Qed.

(** The fields of the session after [close_session]. *)
Lemma close_session_fields now inserted_at agents s :
  let s' := (close_session now inserted_at agents s).2 in
  status s' = closed
  /\ closed_at s' = Some now
  /\ total_duration_seconds s' =
     match created_at s with
     | Some created => Some (int_total_seconds (now - created))
     | None => total_duration_seconds s
     end
  /\ created_at s' =
     match created_at s with
     | Some created => Some created
     | None => Some inserted_at
     end
  /\ assigned_agent_cached s' =
     Accounts.decrement_chat_count <$> related_agent agents s.
Proof.
  cbv zeta. rewrite close_session_session. unfold save.
  destruct (created_at s) as [created |] eqn:Hc; simpl;
    rewrite ?Hc; simpl; done.
Qed.

(** The columns [close_session] never writes. *)
Lemma close_session_untouched now inserted_at agents s :
  let s' := (close_session now inserted_at agents s).2 in
  id s' = id s /\ customer_email s' = customer_email s
  /\ priority s' = priority s /\ assigned_agent s' = assigned_agent s
  /\ resume_token s' = resume_token s
  /\ resume_token_expires_at s' = resume_token_expires_at s
  /\ is_abandoned s' = is_abandoned s
  /\ is_resumed s' = is_resumed s
  /\ requires_followup s' = requires_followup s
  /\ first_response_at s' = first_response_at s
  /\ wait_time_seconds s' = wait_time_seconds s
  /\ response_time_seconds s' = response_time_seconds s
  /\ message_count s' = message_count s.
Proof.
  cbv zeta. rewrite close_session_session. unfold save.
  destruct (created_at s) as [created |] eqn:Hc; simpl;
    rewrite ?Hc; simpl; done.
Qed.

(** The related object of the session after [close_session]. *)
Lemma related_agent_after_close now inserted_at agents s :
  related_agent (close_session now inserted_at agents s).1
    (close_session now inserted_at agents s).2
  = Accounts.decrement_chat_count <$> related_agent agents s.
Proof.
  destruct (close_session_fields now inserted_at agents s)
    as (_ & _ & _ & _ & Hcached).
  destruct (close_session_untouched now inserted_at agents s)
    as (_ & _ & _ & Hfk & _).
  unfold related_agent at 1. rewrite Hcached, Hfk.
  destruct (related_agent agents s) as [a |] eqn:Hrel; [done |]. simpl.
  rewrite close_session_agents, Hrel.
  unfold related_agent in Hrel.
  destruct (assigned_agent_cached s); [done |].
  by destruct (assigned_agent s).
Qed.

(** ** Closing a session *)

(** C5: [close_session] on a session that has been saved (its
    [created_at] is set) sets [status] to ['closed'], [closed_at] to the
    time of the call and [total_duration_seconds] to
    [closed_at - created_at] in whole seconds, the microseconds of the
    difference divided by [10^6] and rounded toward zero (the
    conversion through a double is exact for differences below [2^34]
    seconds).  The session's agent object goes through
    [decrement_chat_count]: one chat fewer, written to the agent's row,
    unless its count was already 0, when nothing is written; where the
    agent is read from its row by the call, that row is decremented; no
    other row changes.  Without an assigned agent the agents' table is
    unchanged. *)
Theorem close_session_effects now inserted_at agents s (created : datetime) :
  created_at s = Some created ->
  exact_seconds_range (now - created) ->
  let agents' := (close_session now inserted_at agents s).1 in
  let s' := (close_session now inserted_at agents s).2 in
  status s' = closed
  /\ closed_at s' = Some now
  /\ total_duration_seconds s' = Some (Z.quot (now - created) 1000000)
  /\ (forall a : Accounts.User,
        related_agent agents s = Some a ->
        assigned_agent_cached s' = Some (Accounts.decrement_chat_count a)
        /\ (0 < Accounts.current_chats_count a ->
            Accounts.current_chats_count (Accounts.decrement_chat_count a)
            = Accounts.current_chats_count a - 1
            /\ agents' =
               alter
                 (Accounts.set_current_chats_count
                    (Accounts.current_chats_count a - 1))
                 (Accounts.id a) agents)
        /\ (Accounts.current_chats_count a <= 0 ->
            Accounts.decrement_chat_count a = a /\ agents' = agents)
        /\ (forall other : UUID,
              other <> Accounts.id a -> agents' !! other = agents !! other))
  /\ (forall (agent_id : UUID) (a : Accounts.User),
        assigned_agent s = Some agent_id ->
        assigned_agent_cached s = None ->
        agents !! agent_id = Some a -> Accounts.id a = agent_id ->
        agents' !! agent_id = Some (Accounts.decrement_chat_count a))
  /\ (assigned_agent s = None -> assigned_agent_cached s = None ->
      agents' = agents /\ assigned_agent_cached s' = None).
Proof.
  intros Hcreated Hrange. cbv zeta.
  destruct (close_session_fields now inserted_at agents s)
    as (Hst & Hclosed & Hdur & _ & Hcached).
  rewrite Hcreated in Hdur.
  rewrite SecondsFacts.int_total_seconds_exact in Hdur by exact Hrange.
  split; [exact Hst |]. split; [exact Hclosed |]. split; [exact Hdur |].
  rewrite close_session_agents, Hcached.
  split; [| split].
  - intros a Hrel. rewrite Hrel. split; [reflexivity |].
    split; [| split].
    + intros Hpos. split; [by apply AccountsFacts.decrement_positive |].
      destruct (Z.ltb_spec 0 (Accounts.current_chats_count a)); [| lia].
      by rewrite AccountsFacts.decrement_positive.
    + intros Hle. split; [by apply AccountsFacts.decrement_not_positive |].
      destruct (Z.ltb_spec 0 (Accounts.current_chats_count a)); [lia | done].
    + intros other Hne.
      destruct (0 <? Accounts.current_chats_count a); [| done].
      by rewrite lookup_alter_ne.
  - intros agent_id a Hfk Hnone Hrow Hid.
    assert (Hrel : related_agent agents s = Some a)
      by (unfold related_agent; by rewrite Hnone, Hfk).
    rewrite Hrel, Hid.
    destruct (Z.ltb_spec 0 (Accounts.current_chats_count a)) as [Hpos | Hle].
    + rewrite lookup_alter_eq, Hrow. simpl. f_equal.
      rewrite (decrement_as_set a Hpos). reflexivity.
    + rewrite Hrow. f_equal. symmetry.
      by apply AccountsFacts.decrement_not_positive.
  - intros Hfk Hnone.
    assert (Hrel : related_agent agents s = None)
      by (unfold related_agent; by rewrite Hnone, Hfk).
    by rewrite Hrel.
Qed.

Lemma close_session_effects_witness :
  created_at active_session = Some 0
  /\ exact_seconds_range (seconds 10 - 0)
  /\ status
       (close_session (seconds 10) (seconds 10)
          one_agent_table active_session).2
     = closed
  /\ total_duration_seconds
       (close_session (seconds 10) (seconds 10)
          one_agent_table active_session).2
     = Some 10.
Proof.
  assert (Hrange : exact_seconds_range (seconds 10 - 0))
    by (unfold exact_seconds_range, us_per_second, seconds; lia).
  split; [reflexivity |]. split; [exact Hrange |].
  destruct (close_session_effects (seconds 10) (seconds 10) one_agent_table
              active_session 0 eq_refl Hrange) as (Hst & _ & Hdur & _).
  split; [exact Hst | exact Hdur].
Defined.

(** C1, the counterexample: an active session of agent 1, who has two
    chats open, closed at second 10 and closed again at second 25.  The
    second call moves [closed_at] from 10 s to 25 s, recomputes
    [total_duration_seconds] from 10 to 25 and takes the agent's
    [current_chats_count] from 1 to 0, in the row and in the session's
    copy. *)
Lemma close_session_twice_differs :
  let st1 :=
    close_session (seconds 10) (seconds 10) one_agent_table active_session in
  let st2 := close_session (seconds 25) (seconds 25) st1.1 st1.2 in
  status st1.2 = closed /\ status st2.2 = closed
  /\ closed_at st1.2 = Some (seconds 10)
  /\ closed_at st2.2 = Some (seconds 25)
  /\ total_duration_seconds st1.2 = Some 10
  /\ total_duration_seconds st2.2 = Some 25
  /\ Accounts.current_chats_count <$> st1.1 !! 1%N = Some 1
  /\ Accounts.current_chats_count <$> st2.1 !! 1%N = Some 0
  /\ Accounts.current_chats_count <$> assigned_agent_cached st1.2 = Some 1
  /\ Accounts.current_chats_count <$> assigned_agent_cached st2.2 = Some 0
  /\ st2 <> st1.
Proof.
  cbv zeta. repeat split; try (vm_compute; reflexivity).
  intros Heq. apply (f_equal (fun st => closed_at st.2)) in Heq.
  vm_compute in Heq. discriminate Heq.
Qed.

(** C1, as amended: [close_session] has no guard on the status, so a
    second call on a saved session acts again: [status] stays
    ['closed'], [closed_at] becomes the time of the second call,
    [total_duration_seconds] is recomputed from it, and the session's
    agent object goes through [decrement_chat_count] once more, the new
    count being written to the agent's row when it decrements.  The
    second call leaves the session and the agents' table as the first
    call left them if and only if it is made at the same time and the
    agent's count had reached 0 by the first call (it was at most 1
    before it), or there is no agent. *)
Theorem close_session_second_call (now1 ins1 now2 ins2 : datetime)
  agents s (created : datetime) :
  created_at s = Some created ->
  let st1 := close_session now1 ins1 agents s in
  let st2 := close_session now2 ins2 st1.1 st1.2 in
  status st2.2 = closed
  /\ closed_at st2.2 = Some now2
  /\ total_duration_seconds st2.2 = Some (int_total_seconds (now2 - created))
  /\ (forall a : Accounts.User,
        related_agent agents s = Some a ->
        assigned_agent_cached st2.2
        = Some (Accounts.decrement_chat_count
                  (Accounts.decrement_chat_count a))
        /\ st2.1 =
           if 0 <? Accounts.current_chats_count
                     (Accounts.decrement_chat_count a)
           then alter
                  (Accounts.set_current_chats_count
                     (Accounts.current_chats_count
                        (Accounts.decrement_chat_count
                           (Accounts.decrement_chat_count a))))
                  (Accounts.id a) st1.1
           else st1.1)
  /\ (related_agent agents s = None -> st2.1 = st1.1)
  /\ (st2 = st1 <->
      now2 = now1
      /\ forall a : Accounts.User,
           related_agent agents s = Some a ->
           Accounts.current_chats_count a <= 1).
Proof.
  intros Hcreated. cbv zeta.
  set (st1 := close_session now1 ins1 agents s).
  destruct (close_session_fields now1 ins1 agents s)
    as (Hst1 & Hclosed1 & Hdur1 & Hcreated1 & Hcached1).
  fold st1 in Hst1, Hclosed1, Hdur1, Hcreated1, Hcached1.
  rewrite Hcreated in Hdur1, Hcreated1.
  destruct (close_session_fields now2 ins2 st1.1 st1.2)
    as (Hst2 & Hclosed2 & Hdur2 & Hcreated2 & Hcached2).
  rewrite Hcreated1 in Hdur2, Hcreated2.
  pose proof (related_agent_after_close now1 ins1 agents s) as Hrel1.
  fold st1 in Hrel1. rewrite Hrel1 in Hcached2.
  assert (Hagents2 :
            (close_session now2 ins2 st1.1 st1.2).1 =
            match Accounts.decrement_chat_count <$> related_agent agents s with
            | Some a' =>
                if 0 <? Accounts.current_chats_count a'
                then alter
                       (Accounts.set_current_chats_count
                          (Accounts.current_chats_count
                             (Accounts.decrement_chat_count a')))
                       (Accounts.id a') st1.1
                else st1.1
            | None => st1.1
            end).
  { by rewrite close_session_agents, Hrel1. }
  split; [exact Hst2 |]. split; [exact Hclosed2 |]. split; [exact Hdur2 |].
  split; [| split; [| split]].
  - intros a Hrel. rewrite Hcached2, Hagents2, Hrel. simpl.
    rewrite decrement_id. done.
  - intros Hrel. by rewrite Hagents2, Hrel.
  - intros Heq. split.
    + apply (f_equal (fun st => closed_at st.2)) in Heq. simpl in Heq.
      rewrite Hclosed1, Hclosed2 in Heq. by injection Heq.
    + intros a Hrel.
      apply (f_equal (fun st => assigned_agent_cached st.2)) in Heq.
      simpl in Heq. rewrite Hcached1, Hcached2, Hrel in Heq. simpl in Heq.
      injection Heq as Heq. apply decrement_fixed in Heq.
      rewrite AccountsFacts.decrement_count in Heq.
      destruct (Z.ltb_spec 0 (Accounts.current_chats_count a)); lia.
  - intros [-> Hcount].
    rewrite (surjective_pairing (close_session now1 ins2 st1.1 st1.2)).
    rewrite (surjective_pairing st1) at 5.
    f_equal.
    + rewrite Hagents2.
      destruct (related_agent agents s) as [a |] eqn:Hrel; [| done]. simpl.
      specialize (Hcount a eq_refl).
      rewrite AccountsFacts.decrement_count.
      destruct (Z.ltb_spec 0 (Accounts.current_chats_count a)) as [Hp | Hn].
      * destruct (Z.ltb_spec 0 (Accounts.current_chats_count a - 1));
          [lia | done].
      * destruct (Z.ltb_spec 0 (Accounts.current_chats_count a));
          [lia | done].
    + rewrite close_session_session, Hrel1, Hcreated1. cbv zeta.
      assert (Hfix : Accounts.decrement_chat_count
                       <$> (Accounts.decrement_chat_count
                              <$> related_agent agents s)
                     = assigned_agent_cached st1.2).
      { rewrite Hcached1.
        destruct (related_agent agents s) as [a |] eqn:Hrel; [| done].
        simpl. f_equal. apply decrement_fixed.
        specialize (Hcount a eq_refl).
        rewrite AccountsFacts.decrement_count.
        destruct (Z.ltb_spec 0 (Accounts.current_chats_count a)); lia. }
      rewrite Hfix. unfold save. simpl. rewrite Hcreated1.
      rewrite <- Hdur1, <- Hclosed1, <- Hst1.
      by destruct (st1.2).
Qed.

Lemma close_session_second_call_witness :
  created_at active_session = Some 0
  /\ closed_at
       (close_session (seconds 25) (seconds 25)
          (close_session (seconds 10) (seconds 10)
             one_agent_table active_session).1
          (close_session (seconds 10) (seconds 10)
             one_agent_table active_session).2).2
     = Some (seconds 25).
Proof.
  split; [reflexivity |].
  exact (proj1 (proj2 (close_session_second_call
                         (seconds 10) (seconds 10) (seconds 25) (seconds 25)
                         one_agent_table active_session 0 eq_refl))).
Defined.

(** ** Abandonment *)

(** C6: on a session whose status is ['waiting'], [mark_abandoned] sets
    [status] to ['abandoned'] and [is_abandoned] to true and leaves
    every other field, except that a session never saved before is
    inserted by the save and so receives its [created_at]; on a session
    in any of the other six statuses it returns the session
    unchanged. *)
Theorem mark_abandoned_guarded inserted_at s :
  (status s = waiting ->
   mark_abandoned inserted_at s =
   {| id := id s; customer_email := customer_email s; status := abandoned;
      priority := priority s; assigned_agent := assigned_agent s;
      assigned_agent_cached := assigned_agent_cached s;
      resume_token := resume_token s;
      resume_token_expires_at := resume_token_expires_at s;
      is_abandoned := true; is_resumed := is_resumed s;
      requires_followup := requires_followup s;
      created_at :=
        match created_at s with
        | Some created => Some created
        | None => Some inserted_at
        end;
      first_response_at := first_response_at s;
      closed_at := closed_at s; wait_time_seconds := wait_time_seconds s;
      response_time_seconds := response_time_seconds s;
      total_duration_seconds := total_duration_seconds s;
      message_count := message_count s |})
  /\ (status s ∈ [bot; assigned; active; on_hold; abandoned; closed] ->
      mark_abandoned inserted_at s = s)
  /\ (status s <> waiting -> mark_abandoned inserted_at s = s).
Proof.
  unfold mark_abandoned. split; [| split].
  - intros Hw. rewrite bool_decide_eq_true_2 by done.
    destruct s as [? ? ? ? ? ? ? ? ? ? ? [created |] ? ? ? ? ? ?];
      reflexivity.
  - intros Hin. rewrite bool_decide_eq_false_2; [done |].
    intros Hw. rewrite Hw, !elem_of_cons, elem_of_nil in Hin.
    intuition discriminate.
  - intros Hne. by rewrite bool_decide_eq_false_2.
Qed.

(** ** Wait time *)

(** C7, the counterexample: a session already holding
    [wait_time_seconds = 3] whose first response came 4 seconds after
    its creation.  [calculate_wait_time] computes the value again and
    overwrites the stored 3 with 4. *)
Lemma calculate_wait_time_recomputes :
  wait_time_seconds timed_session = Some 3
  /\ calculate_wait_time timed_session
     = Some (set_wait_time_seconds (Some 4) timed_session)
  /\ ~ (forall s s',
          wait_time_seconds s <> None -> calculate_wait_time s = Some s' ->
          wait_time_seconds s' = wait_time_seconds s).
Proof.
  split; [reflexivity |]. split; [vm_compute; reflexivity |].
  intros Hnever.
  specialize (Hnever timed_session
                (set_wait_time_seconds (Some 4) timed_session)).
  simpl in Hnever.
  discriminate Hnever; [discriminate | vm_compute; reflexivity].
Qed.

(** C7, as amended: on a saved session, [calculate_wait_time] sets
    [wait_time_seconds] to [first_response_at - created_at] in whole
    seconds, the microseconds of the difference divided by [10^6] and
    rounded toward zero (the conversion through a double is exact for
    differences below [2^34] seconds), when [first_response_at] is set
    and the status is one of assigned, active, closed, and changes
    nothing otherwise.  The method has no memory of earlier calls: each
    call under that condition computes the value again and overwrites
    what was stored; a repeated call on its own result leaves that
    result as it is. *)
Theorem calculate_wait_time_spec s (created : datetime) :
  created_at s = Some created ->
  (forall responded : datetime,
      first_response_at s = Some responded ->
      status s ∈ [assigned; active; closed] ->
      exact_seconds_range (responded - created) ->
      calculate_wait_time s
      = Some (set_wait_time_seconds
                (Some (Z.quot (responded - created) 1000000)) s))
  /\ (forall responded : datetime,
        first_response_at s = Some responded ->
        status s ∈ [assigned; active; closed] ->
        exists w : Z,
          calculate_wait_time s = Some (set_wait_time_seconds (Some w) s))
  /\ (first_response_at s = None \/ status s ∉ [assigned; active; closed] ->
      calculate_wait_time s = Some s)
  /\ (forall s', calculate_wait_time s = Some s' ->
                 calculate_wait_time s' = Some s').
Proof.
  intros Hcreated. unfold calculate_wait_time. rewrite Hcreated.
  split; [| split; [| split]].
  - intros responded -> Hin Hrange. rewrite bool_decide_eq_true_2 by done.
    by rewrite SecondsFacts.int_total_seconds_exact.
  - intros responded -> Hin. rewrite bool_decide_eq_true_2 by done.
    by eexists.
  - intros [-> | Hout]; [done |].
    rewrite bool_decide_eq_false_2 by done. by destruct (first_response_at s).
  - intros s'. destruct (first_response_at s) as [responded |] eqn:Hresp.
    + case_bool_decide as Hin; intros [= <-]; simpl.
      * rewrite Hresp, Hcreated. by rewrite bool_decide_eq_true_2.
      * rewrite Hresp. by rewrite bool_decide_eq_false_2.
    + intros [= <-]. by rewrite Hresp.
Qed.

Lemma calculate_wait_time_spec_witness :
  created_at timed_session = Some 0
  /\ calculate_wait_time timed_session
     = Some (set_wait_time_seconds (Some 4) timed_session).
Proof.
  split; [reflexivity |].
  destruct (calculate_wait_time_spec timed_session 0 eq_refl)
    as (Hset & _ & _).
  apply (Hset (seconds 4) eq_refl).
  - apply list_elem_of_here.
  - unfold exact_seconds_range, us_per_second, seconds. lia.
Defined.

(** ** Resume tokens *)

Lemma truthy_str_true (o : option string) :
  truthy_str o = true <-> exists token, o = Some token /\ token <> EmptyString.
Proof.
  destruct o as [[| c rest] |]; simpl; split.
  - discriminate.
  - intros (token & [= <-] & Hne). by destruct Hne.
  - intros _. by eexists.
  - done.
  - discriminate.
  - by intros (token & [=] & _).
Qed.

Lemma is_resume_token_valid_true now s :
  is_resume_token_valid now s = true <->
  exists (token : string) (expires : datetime),
    resume_token s = Some token /\ token <> EmptyString
    /\ resume_token_expires_at s = Some expires /\ now < expires.
Proof.
  unfold is_resume_token_valid. split.
  - destruct (truthy_str (resume_token s)) eqn:Htok; simpl; [| discriminate].
    apply truthy_str_true in Htok as (token & Htok & Hne).
    destruct (resume_token_expires_at s) as [expires |]; simpl;
      [| discriminate].
    intros Hlt%Z.ltb_lt. by exists token, expires.
  - intros (token & expires & Htok & Hne & -> & Hlt).
    assert (truthy_str (resume_token s) = true) as ->
      by (apply truthy_str_true; eauto).
    simpl. by apply Z.ltb_lt.
Qed.

Lemma generate_resume_token_fields now inserted_at (token : string) s :
  let s' := (generate_resume_token now inserted_at token s).2 in
  (generate_resume_token now inserted_at token s).1 = token
  /\ resume_token s' = Some token
  /\ resume_token_expires_at s' = Some (now + 24 * 3600 * 1000000).
Proof.
  unfold generate_resume_token, save. simpl.
  by destruct (created_at s).
Qed.

(** C9: [generate_resume_token] stores the token and sets
    [resume_token_expires_at] to exactly 24 hours after the time of the
    call.  [is_resume_token_valid] returns true if and only if
    [resume_token] is set, which the method tests as
    [not self.resume_token] (a token that is present and not empty, as
    every token that [generate_resume_token] stores),
    [resume_token_expires_at] is set, and the current time is strictly
    before [resume_token_expires_at]; in particular it returns false
    when either column is null, and a generated token is valid exactly
    until 24 hours after its generation. *)
Theorem resume_token_expiry now inserted_at (token : string) s
  (at_use : datetime) :
  (let s' := (generate_resume_token now inserted_at token s).2 in
   (generate_resume_token now inserted_at token s).1 = token
   /\ resume_token s' = Some token
   /\ resume_token_expires_at s' = Some (now + 24 * 3600 * 1000000)
   /\ (token <> EmptyString ->
       (is_resume_token_valid at_use s' = true
        <-> at_use < now + 24 * 3600 * 1000000)))
  /\ (is_resume_token_valid at_use s = true <->
      truthy_str (resume_token s) = true
      /\ exists expires : datetime,
           resume_token_expires_at s = Some expires /\ at_use < expires)
  /\ (is_resume_token_valid at_use s = true <->
      exists (tok : string) (expires : datetime),
        resume_token s = Some tok /\ tok <> EmptyString
        /\ resume_token_expires_at s = Some expires /\ at_use < expires)
  /\ (resume_token s = None \/ resume_token_expires_at s = None ->
      is_resume_token_valid at_use s = false).
Proof.
  split; [| split; [| split]].
  - cbv zeta.
    destruct (generate_resume_token_fields now inserted_at token s)
      as (Hret & Htok & Hexp).
    split; [exact Hret |]. split; [exact Htok |]. split; [exact Hexp |].
    intros Hne. rewrite is_resume_token_valid_true, Htok, Hexp. split.
    + by intros (tok & expires & _ & _ & [= <-] & Hlt).
    + intros Hlt. by exists token, (now + 24 * 3600 * 1000000).
  - rewrite is_resume_token_valid_true, truthy_str_true. split.
    + intros (tok & expires & Htok & Hne & Hexp & Hlt). eauto 6.
    + intros ((tok & Htok & Hne) & expires & Hexp & Hlt). eauto 6.
  - apply is_resume_token_valid_true.
  - intros Hnull. apply not_true_is_false.
    rewrite is_resume_token_valid_true.
    intros (tok & expires & Htok & _ & Hexp & _).
    destruct Hnull; congruence.
Qed.

(** ** Closed sessions *)

Lemma calculate_wait_time_frame s s' :
  calculate_wait_time s = Some s' ->
  s' = s \/ exists w, s' = set_wait_time_seconds (Some w) s.
Proof.
  unfold calculate_wait_time.
  destruct (first_response_at s) as [responded |]; [| intros [= <-]; by left].
  case_bool_decide as Hin; [| intros [= <-]; by left].
  destruct (created_at s) as [created |]; [| discriminate].
  intros [= <-]. right. by eexists.
Qed.

Lemma mark_abandoned_cases inserted_at s :
  mark_abandoned inserted_at s = s
  \/ status s = waiting
     /\ mark_abandoned inserted_at s
        = save inserted_at (set_status abandoned (set_is_abandoned true s)).
Proof.
  unfold mark_abandoned. case_bool_decide; [right | left]; done.
Qed.

(** What one life-cycle call does to a session. *)
Lemma session_step_frame (op : SessionOp) agents s agents' s' :
  session_step op (agents, s) = Some (agents', s') ->
  assigned_agent s' = assigned_agent s
  /\ response_time_seconds s' = response_time_seconds s
  /\ (status s = closed -> status s' = closed)
  /\ (closed_at_iff_closed s -> closed_at_iff_closed s')
  /\ ((forall now inserted_at, op <> CloseSession now inserted_at) ->
      total_duration_seconds s' = total_duration_seconds s
      /\ closed_at s' = closed_at s)
  /\ (op <> CalculateWaitTime ->
      wait_time_seconds s' = wait_time_seconds s).
Proof.
  unfold closed_at_iff_closed.
  destruct op as [now inserted_at | | inserted_at]; simpl.
  - intros [= Hpair]. apply (f_equal snd) in Hpair. simpl in Hpair.
    subst s'.
    destruct (close_session_fields now inserted_at agents s)
      as (Hst & Hclosed & _).
    destruct (close_session_untouched now inserted_at agents s)
      as (_ & _ & _ & Hfk & _ & _ & _ & _ & _ & _ & Hwait & Hresp & _).
    rewrite Hst, Hclosed.
    split; [exact Hfk |]. split; [exact Hresp |]. split; [done |].
    split; [intros _; split; done |].
    split; [intros Hne; by destruct (Hne now inserted_at) |].
    intros _. exact Hwait.
  - destruct (calculate_wait_time s) as [s0 |] eqn:Hcalc; [| discriminate].
    intros [= _ <-].
    destruct (calculate_wait_time_frame _ _ Hcalc) as [-> | [w ->]];
      simpl; repeat split; tauto.
  - intros [= _ <-].
    destruct (mark_abandoned_cases inserted_at s) as [-> | [Hw ->]];
      [repeat split; tauto |].
    unfold save. simpl.
    destruct (created_at s); simpl; rewrite Hw.
    all: do 3 (split; [done |]).
    all: split; [| split; done].
    all: intros [Hto _]; split; [| discriminate].
    all: intros Hset; discriminate (Hto Hset).
Qed.

(** C4, the counterexample.  The session that [create_test_data] makes
    with [status='closed'] has no [closed_at].  And on a closed session
    the metrics still move: the active session closed at second 10 has
    [total_duration_seconds = 10] and no [wait_time_seconds]; a further
    [close_session] at second 25 makes the duration 25, and
    [calculate_wait_time] sets [wait_time_seconds] to 4. *)
Lemma closed_session_still_mutated :
  let st1 :=
    close_session (seconds 10) (seconds 10) one_agent_table active_session in
  (status seeded_closed_session = closed
   /\ closed_at seeded_closed_session = None)
  /\ status st1.2 = closed
  /\ total_duration_seconds st1.2 = Some 10
  /\ total_duration_seconds
       (close_session (seconds 25) (seconds 25) st1.1 st1.2).2 = Some 25
  /\ wait_time_seconds st1.2 = None
  /\ wait_time_seconds <$> calculate_wait_time st1.2 = Some (Some 4).
Proof. cbv zeta. repeat split; vm_compute; reflexivity. Qed.

(** C4, as amended: [close_session], [calculate_wait_time] and
    [mark_abandoned] each keep the property that [closed_at] is
    non-null if and only if [status] is ['closed'], so it holds of
    every session that reaches its state through them from one that
    has it; a session created with the default status has it.  Once a
    session is closed, no sequence of these calls changes its [status],
    its [assigned_agent] or its [response_time_seconds];
    [total_duration_seconds] and [closed_at] stay as long as
    [close_session] is not called again, and [wait_time_seconds] stays
    as long as [calculate_wait_time] is not called. *)
Theorem closed_session_stability (ops : list SessionOp)
  agents s agents' s' :
  session_run ops (agents, s) = Some (agents', s') ->
  (closed_at_iff_closed s -> closed_at_iff_closed s')
  /\ (forall (sid : UUID) (mail : string) (created : datetime),
        closed_at_iff_closed (new_session sid mail created))
  /\ (status s = closed ->
      status s' = closed
      /\ assigned_agent s' = assigned_agent s
      /\ response_time_seconds s' = response_time_seconds s
      /\ ((forall now inserted_at, CloseSession now inserted_at ∉ ops) ->
          total_duration_seconds s' = total_duration_seconds s
          /\ closed_at s' = closed_at s)
      /\ (CalculateWaitTime ∉ ops ->
          wait_time_seconds s' = wait_time_seconds s)).
Proof.
  intros Hrun.
  assert (Hnew : forall (sid : UUID) (mail : string) (created : datetime),
             closed_at_iff_closed (new_session sid mail created)).
  { intros sid mail created. unfold closed_at_iff_closed. simpl.
    split; [done | discriminate]. }
  cut ((closed_at_iff_closed s -> closed_at_iff_closed s')
       /\ (status s = closed ->
           status s' = closed
           /\ assigned_agent s' = assigned_agent s
           /\ response_time_seconds s' = response_time_seconds s
           /\ ((forall now inserted_at, CloseSession now inserted_at ∉ ops) ->
               total_duration_seconds s' = total_duration_seconds s
               /\ closed_at s' = closed_at s)
           /\ (CalculateWaitTime ∉ ops ->
               wait_time_seconds s' = wait_time_seconds s))).
  { intros [H1 H2]. split; [exact H1 |]. split; [exact Hnew | exact H2]. }
  clear Hnew. revert agents s Hrun.
  induction ops as [| op ops IH]; intros agents s; simpl.
  - intros [= <- <-]. tauto.
  - destruct (session_step op (agents, s)) as [[agents1 s1] |] eqn:Hstep;
      [| discriminate].
    intros Hrun.
    destruct (session_step_frame _ _ _ _ _ Hstep)
      as (Hag & Hresp & Hst & Hinv & Hdur & Hwait).
    destruct (IH _ _ Hrun) as [IHinv IHclosed].
    split; [tauto |].
    intros Hclosed.
    destruct (IHclosed (Hst Hclosed)) as (H1 & H2 & H3 & H4 & H5).
    split; [exact H1 |].
    split; [congruence |].
    split; [congruence |].
    split.
    + intros Hnoclose.
      destruct Hdur as [Hd Hc].
      { intros now inserted_at ->.
        apply (Hnoclose now inserted_at). apply list_elem_of_here. }
      destruct H4 as [Hd' Hc'].
      { intros now inserted_at Hin.
        apply (Hnoclose now inserted_at). by apply list_elem_of_further. }
      split; congruence.
    + intros Hnocalc.
      rewrite H5, Hwait; [done | |].
      * intros ->. apply Hnocalc. apply list_elem_of_here.
      * intros Hin. apply Hnocalc. by apply list_elem_of_further.
Qed.

Lemma closed_session_stability_witness :
  let st1 :=
    close_session (seconds 10) (seconds 10) one_agent_table active_session in
  exists st2,
    session_run
      [CalculateWaitTime; CloseSession (seconds 25) (seconds 25);
       MarkAbandoned (seconds 30)] st1 = Some st2
    /\ closed_at_iff_closed st1.2
    /\ closed_at_iff_closed st2.2
    /\ status st2.2 = closed
    /\ response_time_seconds st2.2 = Some 4.
Proof.
  cbv zeta.
  set (st1 := close_session (seconds 10) (seconds 10)
                one_agent_table active_session).
  destruct (session_run
              [CalculateWaitTime; CloseSession (seconds 25) (seconds 25);
               MarkAbandoned (seconds 30)] st1)
    as [[agents2 s2] |] eqn:Hrun; [| vm_compute in Hrun; discriminate Hrun].
  rewrite (surjective_pairing st1) in Hrun.
  destruct (closed_session_stability _ _ _ _ _ Hrun)
    as (Hinv & _ & Hclosed).
  assert (Hinv1 : closed_at_iff_closed st1.2).
  { unfold closed_at_iff_closed. split; [reflexivity | discriminate]. }
  destruct (Hclosed eq_refl) as (Hst & _ & Hresp & _).
  exists (agents2, s2). split; [reflexivity |]. split; [exact Hinv1 |].
  split; [exact (Hinv Hinv1) |]. split; [exact Hst |].
  simpl. rewrite Hresp. reflexivity.
Defined.

End ChatFacts.

(* ================================================================= *)
(** * Properties of the queue ordering *)

Module QueueFacts.
Import Queue.

Implicit Types (rows : list ChatQueue) (e : ChatQueue).

#[local] Instance ordering_reflexive : Reflexive ordering.
Proof. intros e. unfold ordering. lia. Qed.

#[local] Instance ordering_transitive : Transitive ordering.
Proof. intros a b c. unfold ordering. lia. Qed.

#[local] Instance ordering_total : Total ordering.
Proof. intros a b. unfold ordering. lia. Qed.

Lemma ordering_priority a b :
  ordering a b ->
  priority b <= priority a
  /\ (priority b = priority a -> entered_queue_at a <= entered_queue_at b).
Proof. unfold ordering. lia. Qed.

Lemma pending_ordered_sorted rows :
  StronglySorted ordering (pending_ordered rows).
Proof. apply StronglySorted_merge_sort; apply _. Qed.

Lemma elem_of_pending_ordered rows e :
  e ∈ pending_ordered rows <-> e ∈ rows /\ status e = pending.
Proof.
  unfold pending_ordered, all_ordered.
  rewrite merge_sort_Permutation, list_elem_of_filter. tauto.
Qed.

(** In a sorted list, an element that the order does not allow before
    another one stands after it. *)
Lemma sorted_places_after (l : list ChatQueue) (a b : ChatQueue) :
  StronglySorted ordering l -> a ∈ l -> b ∈ l -> ~ ordering b a ->
  exists l1 l2 l3, l = l1 ++ a :: l2 ++ b :: l3.
Proof.
  intros Hsorted Ha Hb Hnot.
  destruct (list_elem_of_split _ _ Ha) as (l1 & l2 & ->).
  apply elem_of_app in Hb as [Hb | Hb].
  - destruct Hnot.
    apply (StronglySorted_app_1_elem_of _ _ _ _ _ Hsorted Hb).
    apply list_elem_of_here.
  - apply elem_of_cons in Hb as [-> | Hb]; [by destruct Hnot |].
    destruct (list_elem_of_split _ _ Hb) as (l2a & l3 & ->).
    by exists l1, l2a, l3.
Qed.

Lemma first_pending_best rows e :
  first_pending rows = Some e ->
  e ∈ rows /\ status e = pending
  /\ forall e', e' ∈ rows -> status e' = pending -> ordering e e'.
Proof.
  unfold first_pending. intros (rest & Heq)%head_Some.
  assert (He : e ∈ pending_ordered rows)
    by (rewrite Heq; apply list_elem_of_here).
  apply elem_of_pending_ordered in He as [Hin Hpending].
  split; [done |]. split; [done |].
  intros e' Hin' Hpending'.
  assert (He' : e' ∈ pending_ordered rows)
    by (by apply elem_of_pending_ordered).
  pose proof (pending_ordered_sorted rows) as Hsorted.
  rewrite Heq in He', Hsorted.
  apply elem_of_cons in He' as [-> | Hrest]; [reflexivity |].
  apply StronglySorted_inv in Hsorted as [_ Hall].
  by eapply Forall_forall in Hall.
Qed.

Lemma first_pending_exists rows e :
  e ∈ rows -> status e = pending -> is_Some (first_pending rows).
Proof.
  intros Hin Hpending. unfold first_pending.
  assert (He : e ∈ pending_ordered rows)
    by (by apply elem_of_pending_ordered).
  destruct (pending_ordered rows); [by apply elem_of_nil in He | by eexists].
Qed.

Lemma higher_priority_first rows a b :
  a ∈ rows -> b ∈ rows -> status a = pending -> status b = pending ->
  priority b < priority a -> dequeued_before rows a b.
Proof.
  intros Ha Hb Hpa Hpb Hlt. unfold dequeued_before.
  apply sorted_places_after.
  - apply pending_ordered_sorted.
  - by apply elem_of_pending_ordered.
  - by apply elem_of_pending_ordered.
  - unfold ordering. lia.
Qed.

Section PriorityBands.

(** The numeric priority of each band, with the order the spec
    gives the bands. *)
Variable priority_value : Chat.Priority -> Z.
Hypothesis priority_value_order :
  priority_value Chat.low < priority_value Chat.normal
  /\ priority_value Chat.normal < priority_value Chat.high
  /\ priority_value Chat.high < priority_value Chat.urgent.

(** C8: in the queue's ordering ([-priority], then
    [entered_queue_at]) the pending entries have a first one as soon
    as there is one; that first entry is pending, has the greatest
    priority among the pending entries and, among those of that
    priority, the earliest [entered_queue_at]; a pending entry of
    greater priority stands before one of lower priority whatever
    their entry times, so an urgent entry is taken before a normal
    one that entered earlier. *)
Theorem queue_order_priority_then_fifo rows :
  (forall e, e ∈ rows -> status e = pending ->
             is_Some (first_pending rows))
  /\ (forall e, first_pending rows = Some e ->
       e ∈ rows /\ status e = pending
       /\ forall e', e' ∈ rows -> status e' = pending ->
            priority e' <= priority e
            /\ (priority e' = priority e ->
                entered_queue_at e <= entered_queue_at e'))
  /\ (forall a b, a ∈ rows -> b ∈ rows ->
       status a = pending -> status b = pending ->
       priority b < priority a -> dequeued_before rows a b)
  /\ (forall u n, u ∈ rows -> n ∈ rows ->
       status u = pending -> status n = pending ->
       priority u = priority_value Chat.urgent ->
       priority n = priority_value Chat.normal ->
       entered_queue_at n < entered_queue_at u ->
       dequeued_before rows u n).
Proof.
  split; [| split; [| split]].
  - apply first_pending_exists.
  - intros e (Hin & Hpending & Hbest)%first_pending_best.
    split; [done |]. split; [done |].
    intros e' Hin' Hpending'. apply ordering_priority. by apply Hbest.
  - apply higher_priority_first.
  - intros u n Hu Hn Hpu Hpn Hurgent Hnormal _.
    apply higher_priority_first; try done.
    rewrite Hurgent, Hnormal. lia.
Qed.

End PriorityBands.

Lemma queue_order_priority_then_fifo_witness :
  (band_value Chat.low < band_value Chat.normal
   /\ band_value Chat.normal < band_value Chat.high
   /\ band_value Chat.high < band_value Chat.urgent)
  /\ first_pending queue_rows = Some urgent_entry
  /\ dequeued_before queue_rows urgent_entry normal_entry.
Proof.
  assert (Hbands : band_value Chat.low < band_value Chat.normal
                   /\ band_value Chat.normal < band_value Chat.high
                   /\ band_value Chat.high < band_value Chat.urgent)
    by (simpl; lia).
  split; [exact Hbands |]. split; [reflexivity |].
  destruct (queue_order_priority_then_fifo band_value Hbands queue_rows)
    as (_ & _ & _ & Hbefore).
  apply Hbefore; try reflexivity.
  - unfold queue_rows. do 2 apply list_elem_of_further. apply list_elem_of_here.
  - apply list_elem_of_here.
Defined.

End QueueFacts.

(* ================================================================= *)
(** * Further properties of the agent registry *)

Module AccountsLaws.
Import Accounts RegistryCalls.

Lemma calls_cons (op o : RegistryOp) (ops : list RegistryOp) :
  calls op (o :: ops) = (if decide (o = op) then 1 else 0) + calls op ops.
Proof.
  unfold calls. rewrite filter_cons.
  destruct (decide (o = op)); simpl length; lia.
Qed.

Lemma registry_run_cons (op : RegistryOp) (ops : list RegistryOp) (a : User) :
  registry_run (op :: ops) a = registry_run ops (registry_step a op).
Proof. reflexivity. Qed.

Lemma increments_fields (k : nat) (a : User) :
  registry_run (replicate k Increment) a =
  {| id := id a; username := username a; email := email a; role := role a;
     status := status a; is_available := is_available a;
     current_chats_count := current_chats_count a + Z.of_nat k;
     max_concurrent_chats := max_concurrent_chats a;
     total_chats_handled := total_chats_handled a + Z.of_nat k;
     total_ratings := total_ratings a |}.
Proof.
  revert a. induction k as [| k IH]; intros a.
  - destruct a. simpl. unfold registry_run. simpl. f_equal; lia.
  - change (replicate (S k) Increment)
      with (Increment :: replicate k Increment).
    rewrite registry_run_cons, IH. simpl. f_equal; lia.
Qed.

(** X1: on an agent whose count is not negative, [increment_chat_count]
    followed by [decrement_chat_count] gives the slot back: the agent is
    as before except that [total_chats_handled] is one higher.  In the
    other order the two calls cancel only when a chat was open: at count
    0 the decrement does nothing and the increment then leaves 1. *)
Theorem increment_decrement_round_trip (a : User) :
  0 <= current_chats_count a ->
  decrement_chat_count (increment_chat_count a)
  = set_total_chats_handled (total_chats_handled a + 1) a
  /\ (0 < current_chats_count a ->
      increment_chat_count (decrement_chat_count a)
      = set_total_chats_handled (total_chats_handled a + 1) a)
  /\ (current_chats_count a = 0 ->
      current_chats_count (increment_chat_count (decrement_chat_count a)) = 1).
Proof.
  intros Hnn. destruct a as [i u e r st av c m t tr]. simpl in Hnn.
  unfold decrement_chat_count, increment_chat_count. simpl.
  split; [| split].
  - destruct (Z.ltb_spec 0 (c + 1)); [| lia].
    unfold set_total_chats_handled, set_current_chats_count. simpl.
    f_equal. lia.
  - intros Hpos. destruct (Z.ltb_spec 0 c); [| lia].
    unfold set_total_chats_handled, set_current_chats_count. simpl.
    f_equal. lia.
  - intros ->. reflexivity.
Qed.

Lemma increment_decrement_round_trip_witness :
  0 <= current_chats_count idle_agent
  /\ decrement_chat_count (increment_chat_count idle_agent)
     = set_total_chats_handled 8 idle_agent.
Proof.
  assert (Hnn : 0 <= current_chats_count idle_agent) by (simpl; lia).
  split; [exact Hnn |].
  exact (proj1 (increment_decrement_round_trip idle_agent Hnn)).
Defined.

(** X2: releasing a slot reopens the agent.  An available, online agent
    with at least one chat open and no more than its maximum can accept
    a chat after [decrement_chat_count], also when it was full before. *)
Theorem decrement_frees_capacity (a : User) :
  is_available a = true -> status a = online ->
  0 < current_chats_count a <= max_concurrent_chats a ->
  can_accept_chat (decrement_chat_count a) = true.
Proof.
  intros Hav Hon [Hpos Hmax].
  apply AccountsFacts.can_accept_chat_true.
  unfold decrement_chat_count.
  destruct (Z.ltb_spec 0 (current_chats_count a)); [| lia].
  simpl. repeat split; [done | done | lia].
Qed.

Lemma decrement_frees_capacity_witness :
  can_accept_chat full_agent = false
  /\ can_accept_chat (decrement_chat_count full_agent) = true.
Proof.
  split; [reflexivity |].
  apply (decrement_frees_capacity full_agent); [reflexivity | reflexivity |].
  simpl. lia.
Defined.

(** X3: an available, online agent that takes [k] chats through
    [increment_chat_count] has its count and its [total_chats_handled]
    each [k] higher, and [can_accept_chat] still holds afterwards exactly
    when the new count is below [max_concurrent_chats]: callers that
    test [can_accept_chat] before each increment stop at the maximum. *)
Theorem capacity_exhausted_after_increments (k : nat) (a : User) :
  is_available a = true -> status a = online ->
  let a' := registry_run (replicate k Increment) a in
  current_chats_count a' = current_chats_count a + Z.of_nat k
  /\ total_chats_handled a' = total_chats_handled a + Z.of_nat k
  /\ (can_accept_chat a' = true
      <-> current_chats_count a + Z.of_nat k < max_concurrent_chats a).
Proof.
  intros Hav Hon. cbv zeta. rewrite increments_fields.
  split; [reflexivity |]. split; [reflexivity |].
  rewrite AccountsFacts.can_accept_chat_true. simpl. tauto.
Qed.

Lemma capacity_exhausted_after_increments_witness :
  can_accept_chat (registry_run (replicate 4 Increment) idle_agent) = true
  /\ can_accept_chat (registry_run (replicate 5 Increment) idle_agent)
     = false.
Proof.
  split.
  - apply (capacity_exhausted_after_increments 4 idle_agent eq_refl eq_refl).
    simpl. lia.
  - apply not_true_is_false. intros Hacc.
    apply (capacity_exhausted_after_increments 5 idle_agent eq_refl eq_refl)
      in Hacc.
    simpl in Hacc. lia.
Defined.

(** X4: over any sequence of [increment_chat_count] and
    [decrement_chat_count] calls, [total_chats_handled] grows by exactly
    the number of increments; [current_chats_count] ends no higher than
    its start plus the increments and no lower than its start minus the
    decrements, and it never becomes negative if it did not start
    negative. *)
Theorem registry_run_accounting (ops : list RegistryOp) (a : User) :
  total_chats_handled (registry_run ops a)
  = total_chats_handled a + calls Increment ops
  /\ current_chats_count a - calls Decrement ops
     <= current_chats_count (registry_run ops a)
     <= current_chats_count a + calls Increment ops
  /\ (0 <= current_chats_count a ->
      0 <= current_chats_count (registry_run ops a)).
Proof.
  revert a. induction ops as [| op ops IH]; intros a.
  - unfold registry_run, calls. simpl. lia.
  - rewrite registry_run_cons.
    destruct (IH (registry_step a op)) as (Htot & Hcount & Hnn).
    rewrite !calls_cons.
    destruct op; simpl registry_step in *.
    + rewrite decide_True by done. rewrite decide_False by done.
      simpl in Htot, Hcount, Hnn.
      split; [lia |]. split; [lia |]. intros H0. apply Hnn. lia.
    + rewrite decide_False by done. rewrite decide_True by done.
      rewrite AccountsFacts.decrement_total in Htot.
      rewrite AccountsFacts.decrement_count in Hcount, Hnn.
      destruct (Z.ltb_spec 0 (current_chats_count a));
        (split; [lia |]; split; [lia |]; intros H0; apply Hnn; lia).
Qed.

End AccountsLaws.

(* ================================================================= *)
(** * Further properties of the session life cycle *)

Module ChatLaws.
Import Chat.

Implicit Types (s : ChatSession) (agents : gmap UUID Accounts.User).
Implicit Types (now inserted_at : datetime).

(** ** The columns no life-cycle method writes *)

Lemma session_step_untouched (op : SessionOp) agents s agents' s' :
  session_step op (agents, s) = Some (agents', s') ->
  id s' = id s /\ customer_email s' = customer_email s
  /\ priority s' = priority s /\ assigned_agent s' = assigned_agent s
  /\ resume_token s' = resume_token s
  /\ resume_token_expires_at s' = resume_token_expires_at s
  /\ is_resumed s' = is_resumed s
  /\ requires_followup s' = requires_followup s
  /\ (created_at s <> None -> created_at s' = created_at s)
  /\ first_response_at s' = first_response_at s
  /\ response_time_seconds s' = response_time_seconds s
  /\ message_count s' = message_count s.
Proof.
  destruct op as [now inserted_at | | inserted_at]; simpl.
  - intros [= Hpair]. apply (f_equal snd) in Hpair. simpl in Hpair.
    subst s'.
    destruct (ChatFacts.close_session_untouched now inserted_at agents s)
      as (? & ? & ? & ? & ? & ? & ? & ? & ? & ? & ? & ? & ?).
    destruct (ChatFacts.close_session_fields now inserted_at agents s)
      as (_ & _ & _ & Hcreated & _).
    repeat split; try done.
    intros Hsaved. rewrite Hcreated. by destruct (created_at s).
  - destruct (calculate_wait_time s) as [s0 |] eqn:Hcalc; [| discriminate].
    intros [= _ <-].
    destruct (ChatFacts.calculate_wait_time_frame _ _ Hcalc)
      as [-> | [w ->]]; simpl; tauto.
  - intros [= _ <-].
    destruct (ChatFacts.mark_abandoned_cases inserted_at s)
      as [-> | [Hw ->]]; [tauto |].
    destruct s as [? ? ? ? ? ? ? ? ? ? ? [created |] ? ? ? ? ? ?]; simpl;
      intuition congruence.
Qed.

Lemma session_run_untouched (ops : list SessionOp) agents s agents' s' :
  session_run ops (agents, s) = Some (agents', s') ->
  id s' = id s /\ customer_email s' = customer_email s
  /\ priority s' = priority s /\ assigned_agent s' = assigned_agent s
  /\ resume_token s' = resume_token s
  /\ resume_token_expires_at s' = resume_token_expires_at s
  /\ is_resumed s' = is_resumed s
  /\ requires_followup s' = requires_followup s
  /\ (created_at s <> None -> created_at s' = created_at s)
  /\ first_response_at s' = first_response_at s
  /\ response_time_seconds s' = response_time_seconds s
  /\ message_count s' = message_count s.
Proof.
  revert agents s. induction ops as [| op ops IH]; intros agents s; simpl.
  - intros [= <- <-]. tauto.
  - destruct (session_step op (agents, s)) as [[agents1 s1] |] eqn:Hstep;
      [| discriminate].
    intros Hrun. apply IH in Hrun. apply session_step_untouched in Hstep.
    destruct Hrun as (? & ? & ? & ? & ? & ? & ? & ? & Hc2 & ? & ? & ?).
    destruct Hstep as (? & ? & ? & ? & ? & ? & ? & ? & Hc1 & ? & ? & ?).
    repeat split; try congruence.
    intros Hsaved. rewrite Hc2, Hc1; [done | done |].
    by rewrite Hc1.
Qed.

(** ** Errors *)

Lemma calculate_wait_time_saved s :
  created_at s <> None -> is_Some (calculate_wait_time s).
Proof.
  intros Hsaved. unfold calculate_wait_time.
  destruct (first_response_at s); [| by eexists].
  case_bool_decide; [| by eexists].
  destruct (created_at s); [by eexists | done].
Qed.

(** X5: [calculate_wait_time] raises in exactly one situation: the
    session has never been saved ([created_at] is null) while
    [first_response_at] is set and the status is assigned, active or
    closed, so that the subtraction is reached. *)
Theorem calculate_wait_time_raises s :
  calculate_wait_time s = None <->
  created_at s = None /\ first_response_at s <> None
  /\ status s ∈ [assigned; active; closed].
Proof.
  unfold calculate_wait_time.
  destruct (first_response_at s) as [responded |].
  - case_bool_decide as Hin.
    + destruct (created_at s) as [created |]; split.
      * discriminate.
      * intros [[=] _].
      * done.
      * done.
    + split; [discriminate | tauto].
  - split; [discriminate | intros (_ & Hne & _); by destruct Hne].
Qed.

(** X6: on a session that has been saved ([created_at] is set) no
    sequence of [close_session], [calculate_wait_time] and
    [mark_abandoned] calls raises, and [created_at] and
    [first_response_at] come out as they went in. *)
Theorem saved_session_never_raises (ops : list SessionOp) agents s :
  created_at s <> None ->
  exists agents' s',
    session_run ops (agents, s) = Some (agents', s')
    /\ created_at s' = created_at s
    /\ first_response_at s' = first_response_at s.
Proof.
  revert agents s. induction ops as [| op ops IH]; intros agents s Hsaved.
  - exists agents, s. done.
  - simpl.
    assert (Hstep : exists st1, session_step op (agents, s) = Some st1).
    { destruct op as [now inserted_at | | inserted_at]; simpl;
        [by eexists | | by eexists].
      destruct (calculate_wait_time_saved s Hsaved) as [s0 ->]. by eexists. }
    destruct Hstep as [[agents1 s1] Hstep]. rewrite Hstep.
    pose proof (session_step_untouched _ _ _ _ _ Hstep)
      as (_ & _ & _ & _ & _ & _ & _ & _ & Hc & Hf & _).
    specialize (Hc Hsaved).
    destruct (IH agents1 s1) as (agents' & s' & Hrun & Hc' & Hf').
    { by rewrite Hc. }
    exists agents', s'. split; [done |]. split; congruence.
Qed.

Lemma saved_session_never_raises_witness :
  created_at active_session <> None
  /\ exists agents' s',
      session_run [CalculateWaitTime; CloseSession (seconds 10) (seconds 10);
                   MarkAbandoned (seconds 11); CalculateWaitTime]
        (one_agent_table, active_session) = Some (agents', s').
Proof.
  assert (Hsaved : created_at active_session <> None) by discriminate.
  split; [exact Hsaved |].
  destruct (saved_session_never_raises
              [CalculateWaitTime; CloseSession (seconds 10) (seconds 10);
               MarkAbandoned (seconds 11); CalculateWaitTime]
              one_agent_table active_session Hsaved)
    as (agents' & s' & Hrun & _).
  by exists agents', s'.
Defined.

(** ** Metrics *)

(** X7: closing a saved session and then computing its wait time gives
    two metrics that agree with the clock: when the first response came
    no later than the close, [wait_time_seconds] is at most
    [total_duration_seconds]. *)
Theorem wait_time_within_duration now inserted_at agents s
  (created responded : datetime) :
  created_at s = Some created ->
  first_response_at s = Some responded ->
  responded <= now ->
  exists s' (w d : Z),
    calculate_wait_time (close_session now inserted_at agents s).2 = Some s'
    /\ wait_time_seconds s' = Some w
    /\ total_duration_seconds s' = Some d
    /\ w <= d.
Proof.
  intros Hcreated Hresponded Hle.
  destruct (ChatFacts.close_session_fields now inserted_at agents s)
    as (Hst & _ & Hdur & Hc & _).
  destruct (ChatFacts.close_session_untouched now inserted_at agents s)
    as (_ & _ & _ & _ & _ & _ & _ & _ & _ & Hfirst & _).
  rewrite Hcreated in Hdur, Hc.
  unfold calculate_wait_time. rewrite Hfirst, Hresponded, Hst, Hc.
  rewrite bool_decide_eq_true_2
    by (do 2 apply list_elem_of_further; apply list_elem_of_here).
  eexists _, _, _. split; [reflexivity |]. simpl.
  split; [reflexivity |]. split; [exact Hdur |].
  apply SecondsFacts.int_total_seconds_mono. lia.
Qed.

Lemma wait_time_within_duration_witness :
  exists s' (w d : Z),
    calculate_wait_time
      (close_session (seconds 10) (seconds 10)
         one_agent_table active_session).2 = Some s'
    /\ wait_time_seconds s' = Some w
    /\ total_duration_seconds s' = Some d
    /\ w <= d.
Proof.
  apply (wait_time_within_duration (seconds 10) (seconds 10) one_agent_table
           active_session 0 (seconds 4) eq_refl eq_refl).
  unfold seconds. lia.
Defined.

(** X8: the whole seconds that [close_session] stores, for a difference
    below [2^34] seconds, where the conversion through a double is
    exact.  With the close no earlier than the creation the duration [d]
    is not negative and [d] seconds have fully elapsed while [d + 1]
    have not; with a clock that reads earlier than the creation the
    duration is not positive, and it is 0 when the difference is under
    one second, because the conversion rounds toward zero. *)
Theorem close_session_duration_bounds now inserted_at agents s
  (created : datetime) :
  created_at s = Some created ->
  exact_seconds_range (now - created) ->
  exists d : Z,
    total_duration_seconds (close_session now inserted_at agents s).2 = Some d
    /\ (created <= now ->
        0 <= d /\ 1000000 * d <= now - created < 1000000 * (d + 1))
    /\ (now <= created ->
        d <= 0 /\ (created - now < 1000000 -> d = 0)).
Proof.
  intros Hcreated Hrange.
  destruct (ChatFacts.close_session_fields now inserted_at agents s)
    as (_ & _ & Hdur & _).
  rewrite Hcreated in Hdur.
  eexists. split; [exact Hdur |].
  unfold exact_seconds_range, us_per_second in Hrange.
  split.
  - intros Hle.
    pose proof (SecondsFacts.int_total_seconds_bounds (now - created)) as Hb.
    unfold us_per_second in Hb. lia.
  - intros Hle.
    pose proof (SecondsFacts.int_total_seconds_sign (now - created))
      as [_ Hneg].
    split; [apply Hneg; lia |]. intros Hsmall.
    rewrite SecondsFacts.int_total_seconds_exact
      by (unfold exact_seconds_range, us_per_second; lia).
    apply Z.quot_small_iff; unfold us_per_second; lia.
Qed.

Lemma close_session_duration_bounds_witness :
  exists d : Z,
    total_duration_seconds
      (close_session 10999999 10999999 one_agent_table active_session).2
    = Some d
    /\ d = 10.
Proof.
  destruct (close_session_duration_bounds 10999999 10999999 one_agent_table
              active_session 0 eq_refl) as (d & Hd & Hpos & _).
  { unfold exact_seconds_range, us_per_second. lia. }
  exists d. split; [exact Hd |].
  destruct Hpos as [_ Hb]; lia.
Defined.

(** ** What the life cycle leaves alone *)

(** X9: no sequence of [close_session], [calculate_wait_time] and
    [mark_abandoned] calls touches the resume token or its expiry, so a
    token that is valid at some time stays valid at that time through a
    close or an abandonment, and an invalid one stays invalid. *)
Theorem resume_token_survives_life_cycle (ops : list SessionOp)
  agents s agents' s' (at_use : datetime) :
  session_run ops (agents, s) = Some (agents', s') ->
  resume_token s' = resume_token s
  /\ resume_token_expires_at s' = resume_token_expires_at s
  /\ is_resume_token_valid at_use s' = is_resume_token_valid at_use s.
Proof.
  intros Hrun.
  destruct (session_run_untouched _ _ _ _ _ Hrun)
    as (_ & _ & _ & _ & Htok & Hexp & _).
  split; [exact Htok |]. split; [exact Hexp |].
  unfold is_resume_token_valid. by rewrite Htok, Hexp.
Qed.

Lemma resume_token_survives_life_cycle_witness :
  let tokened := (generate_resume_token 0 0 "tok" active_session).2 in
  is_resume_token_valid (seconds 3600)
    (close_session (seconds 10) (seconds 10) one_agent_table tokened).2
  = true.
Proof.
  cbv zeta.
  destruct (resume_token_survives_life_cycle
              [CloseSession (seconds 10) (seconds 10)]
              one_agent_table
              (generate_resume_token 0 0 "tok" active_session).2
              (close_session (seconds 10) (seconds 10) one_agent_table
                 (generate_resume_token 0 0 "tok" active_session).2).1
              (close_session (seconds 10) (seconds 10) one_agent_table
                 (generate_resume_token 0 0 "tok" active_session).2).2
              (seconds 3600) eq_refl) as (_ & _ & Hvalid).
  rewrite Hvalid. reflexivity.
Defined.

(** X10: abandonment is permanent in the flag.  No sequence of the three
    life-cycle calls resets [is_abandoned] once it is true, in particular
    not a later [close_session]; the property that a session in status
    ['abandoned'] carries the flag is kept by every call; and
    [mark_abandoned] twice is [mark_abandoned] once. *)
Theorem abandonment_is_permanent (ops : list SessionOp)
  agents s agents' s' :
  session_run ops (agents, s) = Some (agents', s') ->
  (is_abandoned s = true -> is_abandoned s' = true)
  /\ ((status s = abandoned -> is_abandoned s = true) ->
      (status s' = abandoned -> is_abandoned s' = true))
  /\ (forall i1 i2 : datetime,
        mark_abandoned i2 (mark_abandoned i1 s) = mark_abandoned i1 s).
Proof.
  intros Hrun. split; [| split].
  - revert agents s Hrun.
    induction ops as [| op ops IH]; intros agents s; simpl.
    + by intros [= <- <-].
    + destruct (session_step op (agents, s)) as [[agents1 s1] |] eqn:Hstep;
        [| discriminate].
      intros Hrun Hflag. apply (IH _ _ Hrun). clear IH Hrun.
      destruct op as [now inserted_at | | inserted_at]; simpl in Hstep.
      * injection Hstep as Hpair. apply (f_equal snd) in Hpair.
        simpl in Hpair. subst s1.
        destruct (ChatFacts.close_session_untouched now inserted_at agents s)
          as (_ & _ & _ & _ & _ & _ & Hab & _).
        by rewrite Hab.
      * destruct (calculate_wait_time s) as [s0 |] eqn:Hcalc; [| discriminate].
        injection Hstep as _ <-.
        by destruct (ChatFacts.calculate_wait_time_frame _ _ Hcalc)
          as [-> | [w ->]].
      * injection Hstep as _ <-.
        destruct (ChatFacts.mark_abandoned_cases inserted_at s)
          as [-> | [Hw ->]]; [done |].
        unfold save. simpl. by destruct (created_at s).
  - revert agents s Hrun.
    induction ops as [| op ops IH]; intros agents s; simpl.
    + by intros [= <- <-].
    + destruct (session_step op (agents, s)) as [[agents1 s1] |] eqn:Hstep;
        [| discriminate].
      intros Hrun Hinv. apply (IH _ _ Hrun). clear IH Hrun.
      destruct op as [now inserted_at | | inserted_at]; simpl in Hstep.
      * injection Hstep as Hpair. apply (f_equal snd) in Hpair.
        simpl in Hpair. subst s1.
        destruct (ChatFacts.close_session_fields now inserted_at agents s)
          as (Hst & _).
        rewrite Hst. discriminate.
      * destruct (calculate_wait_time s) as [s0 |] eqn:Hcalc; [| discriminate].
        injection Hstep as _ <-.
        by destruct (ChatFacts.calculate_wait_time_frame _ _ Hcalc)
          as [-> | [w ->]].
      * injection Hstep as _ <-.
        destruct (ChatFacts.mark_abandoned_cases inserted_at s)
          as [-> | [Hw ->]]; [done |].
        unfold save. simpl. by destruct (created_at s).
  - intros i1 i2. unfold mark_abandoned.
    destruct (decide (status s = waiting)) as [Hw | Hn].
    + rewrite (bool_decide_eq_true_2 _ Hw).
      rewrite bool_decide_eq_false_2; [done |].
      destruct s as [? ? ? ? ? ? ? ? ? ? ? [created |] ? ? ? ? ? ?];
        simpl; discriminate.
    + rewrite (bool_decide_eq_false_2 _ Hn).
      by rewrite (bool_decide_eq_false_2 _ Hn).
Qed.

Lemma abandonment_is_permanent_witness :
  let waiting_session :=
    set_status waiting (new_session 12%N "bob@example.com" 0) in
  is_abandoned
    (close_session (seconds 99) (seconds 99) one_agent_table
       (mark_abandoned (seconds 60) waiting_session)).2 = true.
Proof.
  cbv zeta.
  destruct (abandonment_is_permanent
              [CloseSession (seconds 99) (seconds 99)]
              one_agent_table
              (mark_abandoned (seconds 60)
                 (set_status waiting (new_session 12%N "bob@example.com" 0)))
              (close_session (seconds 99) (seconds 99) one_agent_table
                 (mark_abandoned (seconds 60)
                    (set_status waiting
                       (new_session 12%N "bob@example.com" 0)))).1
              (close_session (seconds 99) (seconds 99) one_agent_table
                 (mark_abandoned (seconds 60)
                    (set_status waiting
                       (new_session 12%N "bob@example.com" 0)))).2
              eq_refl) as (Hkeep & _).
  apply Hkeep. reflexivity.
Defined.

(** ** Sessions never saved *)

(** X25: [close_session] on a session that was never saved
    ([created_at] is null) closes it without computing a duration:
    [total_duration_seconds] stays as it was; the save inserts the
    session, which sets [created_at] to the time of that insert.  A
    second [close_session] therefore stores the time from that insert
    to the second call. *)
Theorem close_session_never_saved (now1 ins1 now2 ins2 : datetime)
  agents s :
  created_at s = None ->
  let st1 := close_session now1 ins1 agents s in
  status st1.2 = closed
  /\ closed_at st1.2 = Some now1
  /\ total_duration_seconds st1.2 = total_duration_seconds s
  /\ created_at st1.2 = Some ins1
  /\ total_duration_seconds (close_session now2 ins2 st1.1 st1.2).2
     = Some (int_total_seconds (now2 - ins1)).
Proof.
  intros Hnone. cbv zeta.
  destruct (ChatFacts.close_session_fields now1 ins1 agents s)
    as (Hst & Hclosed & Hdur & Hcreated & _).
  rewrite Hnone in Hdur, Hcreated.
  split; [exact Hst |]. split; [exact Hclosed |]. split; [exact Hdur |].
  split; [exact Hcreated |].
  destruct (ChatFacts.close_session_fields now2 ins2
              (close_session now1 ins1 agents s).1
              (close_session now1 ins1 agents s).2)
    as (_ & _ & Hdur2 & _).
  by rewrite Hcreated in Hdur2.
Qed.

Lemma close_session_never_saved_witness :
  let unsaved := set_created_at None active_session in
  let st1 := close_session (seconds 10) (seconds 11) one_agent_table unsaved in
  created_at unsaved = None
  /\ total_duration_seconds st1.2 = None
  /\ created_at st1.2 = Some (seconds 11)
  /\ total_duration_seconds
       (close_session (seconds 25) (seconds 26) st1.1 st1.2).2
     = Some 14.
Proof.
  cbv zeta. split; [reflexivity |].
  destruct (close_session_never_saved (seconds 10) (seconds 11)
              (seconds 25) (seconds 26) one_agent_table
              (set_created_at None active_session) eq_refl)
    as (_ & _ & Hdur & Hcreated & Hdur2).
  split; [exact Hdur |]. split; [exact Hcreated |].
  rewrite Hdur2. vm_compute. reflexivity.
Defined.

End ChatLaws.

(* ================================================================= *)
(** * Properties of messages *)

Module MessageFacts.
Import Messages.

Implicit Types (m : Message) (now inserted_at : datetime).

Lemma mark_as_read_unread now inserted_at m :
  is_read m = false ->
  mark_as_read now inserted_at m =
  {| id := id m; session := session m; sender_type := sender_type m;
     sender_name := sender_name m; sender := sender m; message := message m;
     delivery_status := read; is_read := true; read_at := Some now;
     is_internal := is_internal m;
     created_at :=
       match created_at m with
       | Some created => Some created
       | None => Some inserted_at
       end |}.
Proof.
  intros Hunread. unfold mark_as_read. rewrite Hunread.
  destruct m as [? ? ? ? ? ? ? ? ? ? [created |]]; reflexivity.
Qed.

Lemma mark_as_read_already now inserted_at m :
  is_read m = true -> mark_as_read now inserted_at m = m.
Proof. intros Hread. unfold mark_as_read. by rewrite Hread. Qed.

(** X11: [mark_as_read] acts once.  After a call the message is read; a
    second call, at whatever time, changes nothing, so [read_at] keeps
    the time of the first reading. *)
Theorem mark_as_read_first_time_kept (t1 i1 t2 i2 : datetime) m :
  is_read (mark_as_read t1 i1 m) = true
  /\ mark_as_read t2 i2 (mark_as_read t1 i1 m) = mark_as_read t1 i1 m
  /\ (is_read m = false ->
      read_at (mark_as_read t2 i2 (mark_as_read t1 i1 m)) = Some t1).
Proof.
  assert (Hread : is_read (mark_as_read t1 i1 m) = true).
  { destruct (is_read m) eqn:Hm.
    - by rewrite mark_as_read_already.
    - by rewrite mark_as_read_unread. }
  split; [exact Hread |]. split.
  - by apply mark_as_read_already.
  - intros Hunread. rewrite (mark_as_read_already t2 i2) by exact Hread.
    by rewrite mark_as_read_unread.
Qed.

(** X12: the three read columns stay in step.  If [is_read] implies
    [delivery_status = 'read'] and a [read_at] before the call, it does
    so after it; on an unread message the call establishes it, with
    [read_at] the time of the call; the call never alters the text, the
    sender or the session of the message; and it leaves [created_at]
    as it was on every message that is stored or already read, while an
    unread message that was never saved is inserted by the call and
    receives its [created_at] from that insert. *)
Theorem mark_as_read_consistent now inserted_at m :
  (read_consistent m -> read_consistent (mark_as_read now inserted_at m))
  /\ (is_read m = false ->
      read_consistent (mark_as_read now inserted_at m)
      /\ read_at (mark_as_read now inserted_at m) = Some now
      /\ delivery_status (mark_as_read now inserted_at m) = read)
  /\ (message (mark_as_read now inserted_at m) = message m
      /\ sender_type (mark_as_read now inserted_at m) = sender_type m
      /\ sender_name (mark_as_read now inserted_at m) = sender_name m
      /\ sender (mark_as_read now inserted_at m) = sender m
      /\ session (mark_as_read now inserted_at m) = session m
      /\ is_internal (mark_as_read now inserted_at m) = is_internal m)
  /\ (created_at m <> None \/ is_read m = true ->
      created_at (mark_as_read now inserted_at m) = created_at m)
  /\ (created_at m = None -> is_read m = false ->
      created_at (mark_as_read now inserted_at m) = Some inserted_at).
Proof.
  unfold read_consistent.
  destruct (is_read m) eqn:Hm.
  - rewrite mark_as_read_already by done. rewrite Hm.
    split; [done |]. split; [discriminate |]. split; [done |].
    split; [done | discriminate].
  - rewrite mark_as_read_unread by done. simpl.
    split; [done |]. split; [by intros _ |]. split; [done |].
    split.
    + intros [Hsaved | [=]]. by destruct (created_at m).
    + by intros ->.
Qed.

End MessageFacts.

(* ================================================================= *)
(** * Properties of holds *)

Module HoldFacts.
Import Holds.

Implicit Types (h : ChatHold) (now inserted_at : datetime).

Lemma resume_fields now inserted_at h :
  resume now inserted_at h =
  {| id := id h; session := session h; agent := agent h; reason := reason h;
     notes := notes h;
     held_at :=
       match held_at h with
       | Some held => Some held
       | None => Some inserted_at
       end;
     resumed_at := Some now;
     hold_duration_seconds :=
       match held_at h with
       | Some held => Some (int_total_seconds (now - held))
       | None => hold_duration_seconds h
       end |}.
Proof. destruct h as [? ? ? ? ? [held |] ? ?]; reflexivity. Qed.

(** X13: [resume] on a saved hold, called no earlier than the hold was
    placed and less than [2^34] seconds after it, where the conversion
    through a double is exact, closes the hold ([resumed_at] is the time
    of the call) and stores a duration [d] that is not negative, with
    [d] seconds fully elapsed since [held_at] and [d + 1] not. *)
Theorem resume_duration_bounds now inserted_at h (held : datetime) :
  held_at h = Some held -> held <= now ->
  exact_seconds_range (now - held) ->
  resumed_at (resume now inserted_at h) = Some now
  /\ exists d : Z,
      hold_duration_seconds (resume now inserted_at h) = Some d
      /\ d = Z.quot (now - held) 1000000
      /\ 0 <= d
      /\ 1000000 * d <= now - held < 1000000 * (d + 1).
Proof.
  intros Hheld Hle Hrange. rewrite resume_fields, Hheld. simpl.
  split; [reflexivity |]. eexists. split; [reflexivity |].
  split; [by apply SecondsFacts.int_total_seconds_exact |].
  pose proof (SecondsFacts.int_total_seconds_bounds (now - held)) as Hb.
  unfold exact_seconds_range, us_per_second in *. lia.
Qed.

Lemma resume_duration_bounds_witness :
  hold_duration_seconds (resume 190500000 190500000 open_hold) = Some 90.
Proof.
  destruct (resume_duration_bounds 190500000 190500000 open_hold
              100000000 eq_refl)
    as (_ & d & Hd & _ & _ & Hb).
  - lia.
  - unfold exact_seconds_range, us_per_second. lia.
  - rewrite Hd. f_equal. lia.
Defined.

(** X14: [resume] has no guard.  On a saved hold a second call
    overwrites the first, so the hold ends up as if only the later call
    had been made, and with the later call no earlier than the first
    the stored duration does not shrink.  On a hold that was never
    saved the first call stores [resumed_at] and no duration, and its
    save inserts the hold, which sets [held_at] to the time of that
    insert; a second call then stores the time from that insert to the
    second call. *)
Theorem resume_last_call_wins (t1 i1 t2 i2 : datetime) h :
  (held_at h <> None ->
   resume t2 i2 (resume t1 i1 h) = resume t2 i2 h)
  /\ (forall held : datetime,
        held_at h = Some held -> t1 <= t2 ->
        exists d1 d2 : Z,
          hold_duration_seconds (resume t1 i1 h) = Some d1
          /\ hold_duration_seconds (resume t2 i2 (resume t1 i1 h)) = Some d2
          /\ d1 <= d2)
  /\ (held_at h = None ->
      resumed_at (resume t1 i1 h) = Some t1
      /\ held_at (resume t1 i1 h) = Some i1
      /\ hold_duration_seconds (resume t1 i1 h) = hold_duration_seconds h
      /\ hold_duration_seconds (resume t2 i2 (resume t1 i1 h))
         = Some (int_total_seconds (t2 - i1))).
Proof.
  split; [| split].
  - intros Hsaved. rewrite !resume_fields. simpl.
    by destruct (held_at h).
  - intros held Hheld Hle. rewrite !resume_fields. simpl. rewrite Hheld.
    eexists _, _. split; [reflexivity |]. split; [reflexivity |].
    apply SecondsFacts.int_total_seconds_mono. lia.
  - intros Hnone. rewrite !resume_fields. simpl. rewrite Hnone. done.
Qed.

End HoldFacts.

(* ================================================================= *)
(** * Properties of the queue's wait time and order *)

Module QueueLaws.
Import Queue QueueWait.

Implicit Types (q : ChatQueue) (rows : list ChatQueue) (now : datetime).

Lemma calculate_wait_time_pending now q :
  status q = pending ->
  calculate_wait_time now q =
  (int_total_seconds (now - entered_queue_at q),
   set_wait_time_seconds (int_total_seconds (now - entered_queue_at q)) q).
Proof.
  intros Hp. unfold calculate_wait_time. by rewrite bool_decide_eq_true_2.
Qed.

Lemma calculate_wait_time_not_pending now q :
  status q <> pending -> calculate_wait_time now q = (wait_time_seconds q, q).
Proof.
  intros Hp. unfold calculate_wait_time. by rewrite bool_decide_eq_false_2.
Qed.

(** X15: [ChatQueue.calculate_wait_time] always returns the value that
    the entry holds after the call.  An entry that is no longer pending
    is frozen: the call returns the stored wait and changes nothing,
    whatever the time.  In every case the priority, the entry time, the
    status and the position stay, so the call never moves an entry in
    the queue's order. *)
Theorem queue_wait_time_frozen_once_taken now q :
  (calculate_wait_time now q).1
  = wait_time_seconds (calculate_wait_time now q).2
  /\ (status q <> pending ->
      calculate_wait_time now q = (wait_time_seconds q, q))
  /\ (priority (calculate_wait_time now q).2 = priority q
      /\ entered_queue_at (calculate_wait_time now q).2 = entered_queue_at q
      /\ status (calculate_wait_time now q).2 = status q
      /\ queue_position (calculate_wait_time now q).2 = queue_position q)
  /\ (forall q' now',
        ordering (calculate_wait_time now q).2 (calculate_wait_time now' q').2
        <-> ordering q q').
Proof.
  assert (Hframe : forall t e,
             priority (calculate_wait_time t e).2 = priority e
             /\ entered_queue_at (calculate_wait_time t e).2
                = entered_queue_at e
             /\ status (calculate_wait_time t e).2 = status e
             /\ queue_position (calculate_wait_time t e).2
                = queue_position e).
  { intros t e. unfold calculate_wait_time. by case_bool_decide. }
  split; [| split; [| split]].
  - unfold calculate_wait_time. by case_bool_decide.
  - apply calculate_wait_time_not_pending.
  - apply Hframe.
  - intros q' now'. unfold ordering.
    destruct (Hframe now q) as (-> & -> & _).
    destruct (Hframe now' q') as (-> & -> & _). reflexivity.
Qed.

(** X16: for a pending entry the wait returned grows with the clock: a
    later call returns no less than an earlier one; it is not negative
    when the call is no earlier than the entry into the queue; and a
    call after another gives what the later call alone would give. *)
Theorem queue_wait_time_grows (now1 now2 : datetime) q :
  status q = pending -> now1 <= now2 ->
  (calculate_wait_time now1 q).1 <= (calculate_wait_time now2 q).1
  /\ (entered_queue_at q <= now1 -> 0 <= (calculate_wait_time now1 q).1)
  /\ calculate_wait_time now2 (calculate_wait_time now1 q).2
     = calculate_wait_time now2 q.
Proof.
  intros Hp Hle. rewrite !calculate_wait_time_pending by done. simpl.
  split; [| split].
  - apply SecondsFacts.int_total_seconds_mono. lia.
  - intros Hentered.
    apply SecondsFacts.int_total_seconds_sign. lia.
  - reflexivity.
Qed.

Lemma queue_wait_time_grows_witness :
  (calculate_wait_time 2000000 normal_entry).1
  <= (calculate_wait_time 64000000 normal_entry).1.
Proof.
  destruct (queue_wait_time_grows 2000000 64000000 normal_entry eq_refl)
    as (Hgrows & _); [lia |].
  exact Hgrows.
Defined.

(** X18: first in, first out within a priority.  Of two pending rows
    with the same priority, the one that entered the queue strictly
    earlier stands before the other in the ordered queue. *)
Theorem fifo_within_priority rows (a b : ChatQueue) :
  a ∈ rows -> b ∈ rows -> status a = pending -> status b = pending ->
  priority a = priority b -> entered_queue_at a < entered_queue_at b ->
  dequeued_before rows a b.
Proof.
  intros Ha Hb Hpa Hpb Hprio Hearlier. unfold dequeued_before.
  apply QueueFacts.sorted_places_after.
  - apply QueueFacts.pending_ordered_sorted.
  - by apply QueueFacts.elem_of_pending_ordered.
  - by apply QueueFacts.elem_of_pending_ordered.
  - unfold ordering. lia.
Qed.

Lemma fifo_within_priority_witness :
  dequeued_before
    [entry 62%N 1 pending 9000000; entry 61%N 1 pending 3000000]
    (entry 61%N 1 pending 3000000) (entry 62%N 1 pending 9000000).
Proof.
  apply fifo_within_priority; try reflexivity.
  - apply list_elem_of_further, list_elem_of_here.
  - apply list_elem_of_here.
Defined.

End QueueLaws.

(* ================================================================= *)
(** * Properties of ratings *)

Module RatingFacts.
Import Ratings.

Implicit Types (r : ChatRating) (ratings : gmap UUID ChatRating).
Implicit Types (agents : gmap UUID Accounts.User).

Lemma save_Some r ratings agents
  (db' : gmap UUID ChatRating * gmap UUID Accounts.User) :
  save r (ratings, agents) = Some db' ->
  ~ session_rated_elsewhere r ratings
  /\ db'.1 = <[id r := r]> ratings
  /\ db'.2 =
     match agent r with
     | Some agent_id =>
         alter
           (set_total_ratings
              (Z.of_nat (size (filter_agent agent_id (<[id r := r]> ratings)))))
           agent_id agents
     | None => agents
     end.
Proof.
  unfold save, model_save. simpl.
  destruct (decide (session_rated_elsewhere r ratings)) as [Hyes | Hno];
    [discriminate |].
  destruct (agent r); intros [= <-]; done.
Qed.

Lemma not_rated_elsewhere_after_insert r ratings :
  ~ session_rated_elsewhere r ratings ->
  ~ session_rated_elsewhere r (<[id r := r]> ratings).
Proof.
  unfold session_rated_elsewhere. rewrite !map_Exists_lookup.
  intros Hno (k & r' & Hk & Hne & Hsess). apply Hno.
  exists k, r'. rewrite lookup_insert_ne in Hk by done. done.
Qed.

Lemma alter_set_total_ratings_twice (n : Z) (k : UUID) agents :
  alter (set_total_ratings n) k (alter (set_total_ratings n) k agents)
  = alter (set_total_ratings n) k agents.
Proof.
  apply map_eq. intros j. destruct (decide (k = j)) as [<- | Hne].
  - rewrite !lookup_alter_eq. by destruct (agents !! k).
  - by rewrite !lookup_alter_ne.
Qed.

(** X19: [ChatRating.save] recounts.  After a save that succeeds, the
    rating is stored under its primary key and the row of its agent has
    [total_ratings] equal to the number of ratings stored for that
    agent, whatever the column held before; the agent's chat counters
    are not touched. *)
Theorem save_recounts_total_ratings r ratings agents
  (ratings' : gmap UUID ChatRating) (agents' : gmap UUID Accounts.User)
  (agent_id : UUID) (a : Accounts.User) :
  save r (ratings, agents) = Some (ratings', agents') ->
  agent r = Some agent_id -> agents !! agent_id = Some a ->
  ratings' !! id r = Some r
  /\ exists a',
      agents' !! agent_id = Some a'
      /\ Accounts.total_ratings a'
         = Z.of_nat (size (filter_agent agent_id ratings'))
      /\ 1 <= Accounts.total_ratings a'
      /\ Accounts.current_chats_count a' = Accounts.current_chats_count a
      /\ Accounts.total_chats_handled a' = Accounts.total_chats_handled a.
Proof.
  intros Hsave Hagent Hrow.
  apply save_Some in Hsave as (_ & Hr & Ha). simpl in Hr, Ha.
  subst ratings'. rewrite Hagent in Ha. subst agents'.
  split; [apply lookup_insert_eq |].
  eexists. split; [by rewrite lookup_alter_eq, Hrow |]. simpl.
  split; [reflexivity |]. split; [| done].
  assert (Hin : filter_agent agent_id (<[id r := r]> ratings) !! id r = Some r).
  { unfold filter_agent. apply map_lookup_filter_Some.
    split; [apply lookup_insert_eq | done]. }
  assert (filter_agent agent_id (<[id r := r]> ratings) <> ∅)
    as Hne%map_size_non_empty_iff by (intros Hempty; by rewrite Hempty in Hin).
  lia.
Qed.

Lemma save_recounts_total_ratings_witness :
  exists (agents' : gmap UUID Accounts.User) (a' : Accounts.User),
    snd <$> save first_rating (∅, Chat.one_agent_table) = Some agents'
    /\ agents' !! 1%N = Some a'
    /\ 1 <= Accounts.total_ratings a'.
Proof.
  destruct (save first_rating (∅, Chat.one_agent_table))
    as [[ratings' agents'] |] eqn:Hsave;
    [| vm_compute in Hsave; discriminate Hsave].
  destruct (save_recounts_total_ratings first_rating ∅ Chat.one_agent_table
              ratings' agents' 1%N Chat.busy_agent Hsave eq_refl eq_refl)
    as (_ & a' & Hrow & _ & Hpos & _).
  exists agents', a'. split; [reflexivity |]. split; [exact Hrow | exact Hpos].
Defined.

(** X20: saving a rating again does not count it twice.  A save of the
    same rating on the tables left by a successful save succeeds and
    leaves both tables as they are. *)
Theorem save_again_changes_nothing r
  (db db' : gmap UUID ChatRating * gmap UUID Accounts.User) :
  save r db = Some db' -> save r db' = Some db'.
Proof.
  destruct db as [ratings agents]. intros Hsave.
  apply save_Some in Hsave as (Hno & Hr & Ha).
  destruct db' as [ratings' agents']. simpl in Hr, Ha. subst ratings'.
  unfold save, model_save. simpl.
  rewrite decide_False by by apply not_rated_elsewhere_after_insert.
  rewrite insert_insert_eq.
  destruct (agent r) as [agent_id |]; [| by subst].
  subst agents'. by rewrite alter_set_total_ratings_twice.
Qed.

Lemma save_again_changes_nothing_witness :
  exists db',
    save first_rating (∅, Chat.one_agent_table) = Some db'
    /\ save first_rating db' = Some db'.
Proof.
  destruct (save first_rating (∅, Chat.one_agent_table))
    as [db' |] eqn:Hsave; [| vm_compute in Hsave; discriminate Hsave].
  exists db'. split; [reflexivity |].
  exact (save_again_changes_nothing first_rating
           (∅, Chat.one_agent_table) db' Hsave).
Defined.

(** X21: [ChatRating.save] writes at most one agent's row, the row of
    the rating's own agent: every other row is as before, a rating
    without agent changes no row, and no row is added or removed.  So
    when a stored rating is saved under a new agent, the earlier agent's
    [total_ratings] is not recounted. *)
Theorem save_touches_only_its_agent r ratings agents
  (ratings' : gmap UUID ChatRating) (agents' : gmap UUID Accounts.User) :
  save r (ratings, agents) = Some (ratings', agents') ->
  (forall other : UUID, agent r <> Some other ->
                        agents' !! other = agents !! other)
  /\ (agent r = None -> agents' = agents)
  /\ dom agents' = dom agents.
Proof.
  intros Hsave. apply save_Some in Hsave as (_ & _ & Ha). simpl in Ha.
  subst agents'. destruct (agent r) as [agent_id |].
  - split; [| split].
    + intros other Hne. rewrite lookup_alter_ne; [done | congruence].
    + discriminate.
    + apply dom_alter_L.
  - done.
Qed.

Lemma save_touches_only_its_agent_witness :
  exists agents' : gmap UUID Accounts.User,
    snd <$> save second_rating
              ({[ 51%N := first_rating ]}, Chat.one_agent_table)
    = Some agents'
    /\ dom agents' = dom Chat.one_agent_table.
Proof.
  destruct (save second_rating
              ({[ 51%N := first_rating ]}, Chat.one_agent_table))
    as [[ratings' agents'] |] eqn:Hsave;
    [| vm_compute in Hsave; discriminate Hsave].
  exists agents'. split; [reflexivity |].
  exact (proj2 (proj2 (save_touches_only_its_agent second_rating
                         {[ 51%N := first_rating ]} Chat.one_agent_table
                         ratings' agents' Hsave))).
Defined.

End RatingFacts.

(* ================================================================= *)
(** * Properties of canned responses and of the admin columns *)

Module AdminFacts.
Import Admin.

Lemma string_length_app (a b : string) :
  String.length (a +:+ b) = (String.length a + String.length b)%nat.
Proof. induction a as [| c a IH]; simpl; [done | by rewrite IH]. Qed.

Lemma length_substring_0 (n : nat) (text : string) :
  (n <= String.length text)%nat -> String.length (substring 0 n text) = n.
Proof.
  revert text. induction n as [| n IH]; intros [| c text]; simpl; try lia.
  intros Hle. rewrite IH; lia.
Qed.

Lemma prefix_substring_0 (n : nat) (text : string) :
  String.prefix (substring 0 n text) text = true.
Proof.
  revert text. induction n as [| n IH]; intros [| c text]; simpl; try done.
  destruct (Ascii.ascii_dec c c); [apply IH | done].
Qed.

Lemma minutes_text_not_dash (seconds : Z) : minutes_text seconds <> "-".
Proof.
  intros Heq. apply (f_equal String.length) in Heq.
  unfold minutes_text in Heq. rewrite string_length_app in Heq.
  simpl in Heq. lia.
Qed.

Lemma truthy_int_shows_minutes (o : option Z) :
  shows_minutes o
    match o with
    | Some seconds =>
        if truthy_int (Some seconds) then minutes_text seconds else "-"
    | None => "-"
    end.
Proof.
  unfold shows_minutes. destruct o as [w |]; simpl.
  - destruct (Z.eqb_spec w 0) as [-> | Hne]; simpl.
    + split; [tauto |]. intros w [= <-] Hne. by destruct Hne.
    + split.
      * split; [intros Heq; by apply minutes_text_not_dash in Heq |].
        intros [[=] | [= ->]]. by destruct Hne.
      * intros w' [= <-] _. exists (w `div` 60). split; [done |].
        pose proof (Z.mul_div_le w 60). pose proof (Z.mul_succ_div_gt w 60).
        lia.
  - split; [tauto |]. intros w [=].
Qed.

(** X22: [n] calls of [increment_usage] raise [usage_count] by exactly
    [n] and leave the title, the text, the shortcut and every other
    field of the canned response as they were. *)
Theorem increment_usage_counts_each_use (n : nat) (c : Canned.CannedResponse) :
  Nat.iter n Canned.increment_usage c
  = Canned.set_usage_count (Canned.usage_count c + Z.of_nat n) c.
Proof.
  induction n as [| n IH].
  - destruct c. simpl. unfold Canned.set_usage_count. simpl. f_equal. lia.
  - rewrite Nat.iter_succ, IH.
    unfold Canned.increment_usage, Canned.set_usage_count. simpl.
    f_equal. lia.
Qed.

(** X23: the minutes columns of the admin lists
    ([ChatSessionAdmin.wait_time_minutes],
    [ChatHoldAdmin.hold_duration_minutes],
    [ChatQueueAdmin.wait_time_minutes]) show a dash exactly when the
    stored seconds are null or 0, and otherwise the whole minutes rounded
    down followed by [min]; a wait of 1 to 59 seconds thus shows as 0
    minutes while a wait of 0 seconds shows as a dash. *)
Theorem minutes_columns_text :
  (forall obj : Chat.ChatSession,
      shows_minutes (Chat.wait_time_seconds obj) (wait_time_minutes obj))
  /\ (forall obj : Holds.ChatHold,
        shows_minutes (Holds.hold_duration_seconds obj)
          (hold_duration_minutes obj))
  /\ (forall obj : Queue.ChatQueue,
        shows_minutes (Some (Queue.wait_time_seconds obj))
          (queue_wait_time_minutes obj)).
Proof.
  split; [| split]; intros obj.
  - apply truthy_int_shows_minutes.
  - apply truthy_int_shows_minutes.
  - apply (truthy_int_shows_minutes (Some (Queue.wait_time_seconds obj))).
Qed.

(** X24: [MessageAdmin.message_preview] never shows more than 53
    characters.  A text of at most 50 characters is shown whole; a
    longer one is shown as its first 50 characters followed by three
    dots, 53 characters in all. *)
Theorem message_preview_bounded (obj : Messages.Message) :
  (String.length (message_preview obj) <= 53)%nat
  /\ ((String.length (Messages.message obj) <= 50)%nat ->
      message_preview obj = Messages.message obj)
  /\ ((50 < String.length (Messages.message obj))%nat ->
      message_preview obj = substring 0 50 (Messages.message obj) +:+ "..."
      /\ String.length (message_preview obj) = 53%nat
      /\ String.prefix (substring 0 50 (Messages.message obj))
           (Messages.message obj) = true).
Proof.
  unfold message_preview.
  destruct (Nat.ltb_spec 50 (String.length (Messages.message obj)))
    as [Hlong | Hshort].
  - assert (Hlen : String.length
                     (substring 0 50 (Messages.message obj) +:+ "...")
                   = 53%nat).
    { rewrite string_length_app, length_substring_0 by lia. reflexivity. }
    split; [lia |]. split; [lia |]. intros _.
    split; [reflexivity |]. split; [exact Hlen |].
    apply prefix_substring_0.
  - split; [lia |]. split; [done | lia].
Qed.

End AdminFacts.
